(** * Clearing policy of the installer storage (pyanaconda/storage/osinstall.py)

    A shallow embedding of [InstallerStorage.should_clear], [empty_device],
    [get_free_space], [clear_partitions] and the protected-device handling
    of [reset], together with the properties the specification states
    about them.

    The device tree itself belongs to the blivet library.  Devices are
    records holding the attributes the installer code reads; the tree is
    the list of the devices it holds, and devices refer to one another by
    name, as the tree keeps names unique. *)

From Stdlib Require Import ZArith List Bool String Ascii Lia Sorted.
From stdpp Require Import base option gmap strings.
Import ListNotations.

Local Open Scope Z_scope.

(** ** Names and lists of names *)

(** Python's [name in names] on a list of strings. *)
Definition name_in (n : string) (names : list string) : bool :=
  List.existsb (String.eqb n) names.

(** Truth value of a Python list: true when it has an element. *)
Definition nonempty {A : Type} (l : list A) : bool :=
  match l with [] => false | _ :: _ => true end.

(** ** Data model *)

(** Modelled from the spec: the five clearing modes
    [CLEAR_PARTITIONS_NONE], [_LINUX], [_ALL], [_LIST] and [_DEFAULT] are
    imported from [pyanaconda.core.constants]; they are pairwise
    distinct. *)
Inductive ClearPartType : Type :=
  | CLEAR_PARTITIONS_NONE
  | CLEAR_PARTITIONS_LINUX
  | CLEAR_PARTITIONS_ALL
  | CLEAR_PARTITIONS_LIST
  | CLEAR_PARTITIONS_DEFAULT.

Definition ClearPartType_eqb (a b : ClearPartType) : bool :=
  match a, b with
  | CLEAR_PARTITIONS_NONE, CLEAR_PARTITIONS_NONE
  | CLEAR_PARTITIONS_LINUX, CLEAR_PARTITIONS_LINUX
  | CLEAR_PARTITIONS_ALL, CLEAR_PARTITIONS_ALL
  | CLEAR_PARTITIONS_LIST, CLEAR_PARTITIONS_LIST
  | CLEAR_PARTITIONS_DEFAULT, CLEAR_PARTITIONS_DEFAULT => true
  | _, _ => false
  end.

(** The attributes of [device.format] the installer reads.  [fmt_free] is
    [None] when the format object has no attribute [free]. *)
Record DeviceFormat : Type := {
  fmt_type : option string;
  fmt_exists : bool;
  fmt_hidden : bool;
  fmt_linux_native : bool;
  fmt_free : option Z
}.

(** The attributes of a storage device the installer reads.
    [is_partition] stands for [isinstance(device, PartitionDevice)];
    [flag_lvm], [flag_raid] and [flag_swap] for [get_flag] on
    [parted.PARTITION_LVM], [_RAID] and [_SWAP]; [part_number] for
    [parted_partition.number], [None] when there is none.  [disks],
    [disk], [parents] and [ancestors] hold device names; [ancestors] is
    the transitive parent set of the device. *)
Record Device : Type := {
  name : string;
  is_partition : bool;
  is_disk : bool;
  dev_exists : bool;
  protected : bool;
  partitioned : bool;
  disks : list string;
  disk : option string;
  parents : list string;
  ancestors : list string;
  format : DeviceFormat;
  is_magic : bool;
  is_primary : bool;
  is_logical : bool;
  flag_lvm : bool;
  flag_raid : bool;
  flag_swap : bool;
  size : Z;
  part_number : option Z
}.

(** [StorageDiscoveryConfig]. *)
Record StorageDiscoveryConfig : Type := {
  clear_part_type : ClearPartType;
  clear_part_disks : list string;
  clear_part_devices : list string;
  initialize_disks : bool;
  protected_dev_specs : list string;
  zero_mbr : bool;
  clear_non_existent : bool
}.

(** The part of [InstallerStorage] the clearing policy works on. *)
Record InstallerStorage : Type := {
  config : StorageDiscoveryConfig;
  devicetree : list Device;
  protected_dev_names : list string;
  live_backing_device : option string
}.

(** The keyword arguments of [should_clear]; [None] for an absent key. *)
Record ShouldClearKwargs : Type := {
  kw_clear_part_type : option ClearPartType;
  kw_clear_part_disks : option (list string);
  kw_clear_part_devices : option (list string)
}.

Definition no_kwargs : ShouldClearKwargs :=
  {| kw_clear_part_type := None;
     kw_clear_part_disks := None;
     kw_clear_part_devices := None |}.

(** [kwargs.get(key, default)]. *)
Definition kwargs_get {A : Type} (o : option A) (dflt : A) : A :=
  match o with Some v => v | None => dflt end.

(** ** Queries on the device tree *)

(** Modelled from the spec: [device.children] is blivet's; the children
    of a device are the devices of the tree that have it as a parent. *)
Definition children (tree : list Device) (device : Device) : list Device :=
  List.filter (fun c => name_in (name device) (parents c)) tree.

(** Modelled from the spec: [devicetree.get_dependent_devices] is blivet's;
    the spec gives it as the transitive descendants of the device, and
    [ancestors] as the transitive parent set of a device, so the
    dependents of [device] are the devices that have it as an ancestor. *)
Definition get_dependent_devices (tree : list Device) (device : Device)
  : list Device :=
  List.filter (fun d => name_in (name device) (ancestors d)) tree.

(** ** The clearing policy *)

(** [empty_device]: all the children of a partitioned device are magic
    partitions; another device has no format. *)
Definition empty_device (self : InstallerStorage) (device : Device) : bool :=
  if partitioned device then
    List.forallb is_magic (children (devicetree self) device)
  else
    match fmt_type (format device) with None => true | Some _ => false end.

(** The loop over [device.disks] at the head of [should_clear]: true when
    the loop returns [False]. *)
Definition disk_scope_rejects (clear_part_disks : list string)
  (device : Device) : bool :=
  List.existsb
    (fun disk_name =>
       nonempty clear_part_disks && negb (name_in disk_name clear_part_disks))
    (disks device).

Definition is_none_or_default (t : ClearPartType) : bool :=
  ClearPartType_eqb t CLEAR_PARTITIONS_NONE
  || ClearPartType_eqb t CLEAR_PARTITIONS_DEFAULT.

(** [should_clear]: each [if ... then false] is one [return False] of
    the source, in its order. *)
Definition should_clear (self : InstallerStorage) (device : Device)
  (kwargs : ShouldClearKwargs) : bool :=
  let clear_part_type :=
    kwargs_get (kw_clear_part_type kwargs) (clear_part_type (config self)) in
  let clear_part_disks :=
    kwargs_get (kw_clear_part_disks kwargs) (clear_part_disks (config self)) in
  let clear_part_devices :=
    kwargs_get (kw_clear_part_devices kwargs)
               (clear_part_devices (config self)) in
  if disk_scope_rejects clear_part_disks device then false
  else if negb (clear_non_existent (config self))
          && ((is_disk device && negb (fmt_exists (format device)))
              || (negb (is_disk device) && negb (dev_exists device)))
  then false
  else if is_none_or_default clear_part_type
          && (negb (initialize_disks (config self)) || negb (is_disk device))
  then false
  else if is_none_or_default clear_part_type
          && negb (empty_device self device)
  then false
  else if
    (if is_partition device then
       is_magic device
       || (negb (is_primary device) && negb (is_logical device))
       || (ClearPartType_eqb clear_part_type CLEAR_PARTITIONS_LINUX
           && negb (fmt_linux_native (format device))
           && negb (flag_lvm device)
           && negb (flag_raid device)
           && negb (flag_swap device))
     else if is_disk device then
       (partitioned device
        && negb (ClearPartType_eqb clear_part_type CLEAR_PARTITIONS_ALL)
        && negb (empty_device self device))
       || fmt_hidden (format device)
       || (ClearPartType_eqb clear_part_type CLEAR_PARTITIONS_LINUX
           && negb ((initialize_disks (config self)
                     && empty_device self device)
                    || (negb (partitioned device)
                        && fmt_linux_native (format device))))
     else false)
  then false
  else
    let descendants := get_dependent_devices (devicetree self) device in
    if protected device || List.existsb protected descendants then false
    else if ClearPartType_eqb clear_part_type CLEAR_PARTITIONS_LIST
            && negb (name_in (name device) clear_part_devices)
    then false
    else true.

(** The storage object with another clearing mode or another list of
    disks in its configuration, everything else the same. *)
Definition set_clear_part_type (self : InstallerStorage) (t : ClearPartType)
  : InstallerStorage :=
  {| config :=
       {| clear_part_type := t;
          clear_part_disks := clear_part_disks (config self);
          clear_part_devices := clear_part_devices (config self);
          initialize_disks := initialize_disks (config self);
          protected_dev_specs := protected_dev_specs (config self);
          zero_mbr := zero_mbr (config self);
          clear_non_existent := clear_non_existent (config self) |};
     devicetree := devicetree self;
     protected_dev_names := protected_dev_names self;
     live_backing_device := live_backing_device self |}.

Definition set_clear_part_disks (self : InstallerStorage)
  (only_disks : list string) : InstallerStorage :=
  {| config :=
       {| clear_part_type := clear_part_type (config self);
          clear_part_disks := only_disks;
          clear_part_devices := clear_part_devices (config self);
          initialize_disks := initialize_disks (config self);
          protected_dev_specs := protected_dev_specs (config self);
          zero_mbr := zero_mbr (config self);
          clear_non_existent := clear_non_existent (config self) |};
     devicetree := devicetree self;
     protected_dev_names := protected_dev_names self;
     live_backing_device := live_backing_device self |}.

(** The clearing mode and the disk list [should_clear] works with. *)
Definition effective_clear_part_type (self : InstallerStorage)
  (kwargs : ShouldClearKwargs) : ClearPartType :=
  kwargs_get (kw_clear_part_type kwargs) (clear_part_type (config self)).

Definition effective_clear_part_disks (self : InstallerStorage)
  (kwargs : ShouldClearKwargs) : list string :=
  kwargs_get (kw_clear_part_disks kwargs) (clear_part_disks (config self)).

(** A device or one of its dependents is protected. *)
Definition holds_protected (tree : list Device) (device : Device) : bool :=
  protected device
  || List.existsb protected (get_dependent_devices tree device).

(** ** Free space *)

(** Modelled from the spec: [self.disks] is blivet's listing of the
    whole disks of the device tree. *)
Definition storage_disks (self : InstallerStorage) : list Device :=
  List.filter is_disk (devicetree self).

(** Modelled from the spec: [self.partitions] is blivet's listing of the
    partitions of the device tree. *)
Definition storage_partitions (self : InstallerStorage) : list Device :=
  List.filter is_partition (devicetree self).

(** [p.disk == disk]. *)
Definition on_disk (disk_ : Device) (p : Device) : bool :=
  match disk p with
  | Some n => String.eqb n (name disk_)
  | None => false
  end.

(** The keyword arguments [get_free_space] passes to [should_clear]. *)
Definition free_space_kwargs (clear_part_type : ClearPartType)
  (disk_ : Device) : ShouldClearKwargs :=
  {| kw_clear_part_type := Some clear_part_type;
     kw_clear_part_disks := Some [name disk_];
     kw_clear_part_devices := None |}.

(** What a partition that stays adds to [fs_free]: [format.free] when
    the format has this attribute. *)
Definition shrinkable (p : Device) : Z :=
  match fmt_free (format p) with Some f => f | None => 0 end.

(** One turn of the loop over the partitions of a disk, on the pair
    [(disk_free, fs_free)]. *)
Definition partition_free_step (self : InstallerStorage)
  (clear_part_type : ClearPartType) (disk_ : Device)
  (acc : Z * Z) (partition : Device) : Z * Z :=
  let '(disk_free, fs_free) := acc in
  if should_clear self partition (free_space_kwargs clear_part_type disk_)
  then (disk_free + size partition, fs_free)
  else match fmt_free (format partition) with
       | Some f => (disk_free, fs_free + f)
       | None => (disk_free, fs_free)
       end.

(** The body of the loop over the disks: the entry of one disk.  [None]
    stands for the [AttributeError] of [disk.format.free] on a
    partitioned disk whose format has no such attribute. *)
Definition disk_free_space (self : InstallerStorage)
  (clear_part_type : ClearPartType) (disk_ : Device) : option (Z * Z) :=
  if should_clear self disk_ (free_space_kwargs clear_part_type disk_)
  then Some (size disk_, 0)
  else if partitioned disk_ then
    match fmt_free (format disk_) with
    | None => None
    | Some label_free =>
        Some (List.fold_left
                (partition_free_step self clear_part_type disk_)
                (List.filter (on_disk disk_) (storage_partitions self))
                (label_free, 0))
    end
  else match fmt_free (format disk_) with
       | Some f => Some (0, f)
       | None =>
           match fmt_type (format disk_) with
           | None => Some (size disk_, 0)
           | Some _ => Some (0, 0)
           end
       end.

Definition get_free_space_loop (self : InstallerStorage)
  (clear_part_type : ClearPartType) (disks_ : list Device)
  (free : gmap string (Z * Z)) : option (gmap string (Z * Z)) :=
  List.fold_left
    (fun acc disk_ =>
       match acc with
       | None => None
       | Some free =>
           match disk_free_space self clear_part_type disk_ with
           | None => None
           | Some entry => Some (<[name disk_ := entry]> free)
           end
       end)
    disks_ (Some free).

Definition get_free_space (self : InstallerStorage)
  (disks_ : option (list Device)) (clear_part_type_ : option ClearPartType)
  : option (gmap string (Z * Z)) :=
  let disks_ := kwargs_get disks_ (storage_disks self) in
  let clear_part_type_ :=
    kwargs_get clear_part_type_ (clear_part_type (config self)) in
  get_free_space_loop self clear_part_type_ disks_ ∅.

(** ** Protected devices *)

Definition set_protected (d : Device) (b : bool) : Device :=
  {| name := name d; is_partition := is_partition d; is_disk := is_disk d;
     dev_exists := dev_exists d; protected := b;
     partitioned := partitioned d; disks := disks d; disk := disk d;
     parents := parents d; ancestors := ancestors d; format := format d;
     is_magic := is_magic d; is_primary := is_primary d;
     is_logical := is_logical d; flag_lvm := flag_lvm d;
     flag_raid := flag_raid d; flag_swap := flag_swap d; size := size d;
     part_number := part_number d |}.

(** [dev.protected = True] on the device of the tree called [n]: the
    devices are shared objects, so the tree sees the new flag. *)
Definition protect (n : string) (tree : list Device) : list Device :=
  List.map (fun d => if String.eqb (name d) n then set_protected d true else d)
           tree.

(** [devicetree.get_device_by_name]; the tree here holds the hidden
    devices too, which [reset] asks for with [hidden=True]. *)
Definition get_device_by_name (tree : list Device) (n : string)
  : option Device :=
  List.find (fun d => String.eqb (name d) n) tree.

Definition set_devicetree (self : InstallerStorage) (tree : list Device)
  : InstallerStorage :=
  {| config := config self; devicetree := tree;
     protected_dev_names := protected_dev_names self;
     live_backing_device := live_backing_device self |}.

Definition set_protected_dev_names (self : InstallerStorage)
  (names : list string) : InstallerStorage :=
  {| config := config self; devicetree := devicetree self;
     protected_dev_names := names;
     live_backing_device := live_backing_device self |}.

(** What the protected-device handling reads outside the storage object:
    blivet's [devicetree.resolve_device], the lines of [/proc/mounts], and
    udev's view of a device node. *)
Record UdevDevice : Type := {
  udev_is_partition : bool;
  udev_partition_disk : option string
}.

Record Environment : Type := {
  resolve_device : list Device -> string -> option Device;
  proc_mounts : list string;
  udev_get_device : string -> option UdevDevice
}.

Definition _resolve_protected_device_specs (env : Environment)
  (self : InstallerStorage) : InstallerStorage :=
  List.fold_left
    (fun self spec =>
       match resolve_device env (devicetree self) spec with
       | Some dev =>
           set_protected_dev_names self
             (protected_dev_names self ++ [name dev])
       | None => self
       end)
    (protected_dev_specs (config self)) self.

(** [needle in s] on strings. *)
Fixpoint contains (needle s : string) : bool :=
  String.prefix needle s
  || match s with
     | EmptyString => false
     | String _ rest => contains needle rest
     end.

(** The characters [str.split()] splits at, within ASCII. *)
Definition is_space (c : ascii) : bool :=
  let n := nat_of_ascii c in
  ((9 <=? n) && (n <=? 13) || (28 <=? n) && (n <=? 32))%nat.

Fixpoint take_word (s : string) : string :=
  match s with
  | EmptyString => EmptyString
  | String c rest => if is_space c then EmptyString
                     else String c (take_word rest)
  end.

(** [s.split()[0]].  A blank string has no first word; Python raises
    [IndexError] there, which a line naming the live mount point never
    meets. *)
Fixpoint first_word (s : string) : option string :=
  match s with
  | EmptyString => None
  | String c rest => if is_space c then first_word rest
                     else Some (take_word s)
  end.

(** [s.split("/")[-1]]. *)
Fixpoint last_component_from (current s : string) : string :=
  match s with
  | EmptyString => current
  | String c rest =>
      if Ascii.eqb c "/"%char then last_component_from EmptyString rest
      else last_component_from (current +:+ String c EmptyString) rest
  end.

Definition last_component (s : string) : string :=
  last_component_from EmptyString s.

Definition live_mountpoint : string := " /run/initramfs/live ".

(** The name the first line of [/proc/mounts] for the live mount point
    gives: [None] when there is no such line or the name is empty or
    [None]. *)
Definition live_device_name (env : Environment) : option string :=
  match List.find (contains live_mountpoint) (proc_mounts env) with
  | None => None
  | Some mnt =>
      match first_word mnt with
      | None => None
      | Some live_device_path =>
          let live_device_name :=
            match udev_get_device env live_device_path with
            | Some udev_device =>
                if udev_is_partition udev_device
                then udev_partition_disk udev_device
                else Some (last_component live_device_path)
            | None => Some (last_component live_device_path)
            end in
          match live_device_name with
          | Some n => if String.eqb n EmptyString then None else Some n
          | None => None
          end
      end
  end.

Definition _find_live_backing_device (env : Environment)
  (self : InstallerStorage) : InstallerStorage :=
  match live_device_name env with
  | Some n =>
      {| config := config self; devicetree := devicetree self;
         protected_dev_names := protected_dev_names self ++ [n];
         live_backing_device := Some n |}
  | None => self
  end.

Definition is_live_backing_device (self : InstallerStorage)
  (device : Device) : bool :=
  match live_backing_device self with
  | Some n => String.eqb (name device) n
  | None => false
  end.

Definition _mark_protected_device (self : InstallerStorage)
  (device : Device) : InstallerStorage :=
  if name_in (name device) (protected_dev_names self) then
    let tree := protect (name device) (devicetree self) in
    if is_live_backing_device self device then
      set_devicetree self
        (List.fold_left (fun tree parent => protect parent tree)
                        (parents device) tree)
    else set_devicetree self tree
  else self.

(** One turn of the loop of [reset] over the protected names.  [None]
    stands for the [AttributeError] of [device.name] when the name is
    not the name of a device of the tree. *)
Definition mark_by_name (acc : option InstallerStorage) (devname : string)
  : option InstallerStorage :=
  match acc with
  | None => None
  | Some self =>
      match get_device_by_name (devicetree self) devname with
      | None => None
      | Some dev => Some (_mark_protected_device self dev)
      end
  end.

(** The protected-device handling of [reset]. *)
Definition reset_protected_devices (env : Environment)
  (self : InstallerStorage) : option InstallerStorage :=
  let self := set_protected_dev_names self [] in
  let self := _resolve_protected_device_specs env self in
  let self := _find_live_backing_device env self in
  List.fold_left mark_by_name (protected_dev_names self) (Some self).

(** The devices of the tree named among the parents, or among the
    ancestors, of [d] are all protected. *)
Definition parents_protected (tree : list Device) (d : Device) : Prop :=
  forall a, In a tree -> In (name a) (parents d) -> protected a = true.

Definition ancestors_protected (tree : list Device) (d : Device) : Prop :=
  forall a, In a tree -> In (name a) (ancestors d) -> protected a = true.

(** ** Clearing *)

(** Modelled from the spec: [recursive_remove] is blivet's.  The spec
    gives it as the removal of the device and, transitively, of every
    dependent with no other surviving parent; a whole disk stays in the
    tree and loses its children only.  The tree lists a device after its
    parents, so one pass over it finds the dependents to remove:
    [present] holds the names of the tree, [gone] the names removed so
    far. *)
Definition no_surviving_parent (present gone : list string) (x : Device)
  : bool :=
  List.existsb (fun parent => name_in parent gone) (parents x)
  && List.forallb
       (fun parent => name_in parent gone || negb (name_in parent present))
       (parents x).

(** Modelled from the spec: the pass of [recursive_remove] over the
    tree, dropping each device that depended on a removed device and has
    no parent left. *)
Fixpoint cascade (present gone : list string) (tree : list Device)
  : list Device :=
  match tree with
  | [] => []
  | x :: rest =>
      if no_surviving_parent present gone x
      then cascade present (name x :: gone) rest
      else x :: cascade present gone rest
  end.

(** Modelled from the spec: [recursive_remove] itself; the device goes
    too unless it is a whole disk. *)
Definition recursive_remove (tree : list Device) (device : Device)
  : list Device :=
  let remaining := cascade (List.map name tree) [name device] tree in
  if is_disk device then remaining
  else List.filter (fun x => negb (String.eqb (name x) (name device)))
                   remaining.

(** Modelled from the spec: [remove_empty_extended_partitions] is
    blivet's.  The spec gives it as the removal of every
    extended-partition container with no logical child left; a container
    is a partition that is neither primary nor logical. *)
Definition is_extended (p : Device) : bool :=
  is_partition p && negb (is_primary p) && negb (is_logical p).

(** Modelled from the spec: an extended partition with no logical
    partition among its children. *)
Definition empty_extended (tree : list Device) (p : Device) : bool :=
  is_extended p && negb (List.existsb is_logical (children tree p)).

(** Modelled from the spec: [remove_empty_extended_partitions] itself,
    one extended partition of the tree after the other. *)
Definition remove_empty_extended_partitions (tree : list Device)
  : list Device :=
  List.fold_left
    (fun tree p => if empty_extended tree p then recursive_remove tree p
                   else tree)
    (List.filter is_extended tree) tree.

(** Modelled from the spec: [initialize_disk] is blivet's.  The spec
    gives it as marking the disk for a fresh disklabel: the disk gets a
    disklabel that does not exist on the disk yet, with all the disk
    free. *)
Definition fresh_disklabel (d : Device) : Device :=
  {| name := name d; is_partition := is_partition d; is_disk := is_disk d;
     dev_exists := dev_exists d; protected := protected d;
     partitioned := true; disks := disks d; disk := disk d;
     parents := parents d; ancestors := ancestors d;
     format := {| fmt_type := Some "disklabel"%string;
                  fmt_exists := false;
                  fmt_hidden := false;
                  fmt_linux_native := false;
                  fmt_free := Some (size d) |};
     is_magic := is_magic d; is_primary := is_primary d;
     is_logical := is_logical d; flag_lvm := flag_lvm d;
     flag_raid := flag_raid d; flag_swap := flag_swap d; size := size d;
     part_number := part_number d |}.

(** Modelled from the spec: [initialize_disk] itself, on the device of
    the tree that has the name of the disk. *)
Definition initialize_disk (tree : list Device) (disk_ : Device)
  : list Device :=
  List.map (fun d => if String.eqb (name d) (name disk_)
                     then fresh_disklabel d else d)
           tree.

(** [getattr(p.parted_partition, "number", 1)]. *)
Definition partition_number (p : Device) : Z :=
  match part_number p with Some n => n | None => 1 end.

(** [sorted(..., key=..., reverse=True)]: descending keys, devices with
    the same key in the order they had. *)
Fixpoint insert_descending (p : Device) (sorted : list Device)
  : list Device :=
  match sorted with
  | [] => [p]
  | q :: rest =>
      if partition_number q <? partition_number p then p :: sorted
      else q :: insert_descending p rest
  end.

Definition sorted_descending (l : list Device) : list Device :=
  List.fold_left (fun sorted p => insert_descending p sorted) l [].

(** One turn of the loop over the partitions. *)
Definition clear_partition_step (self : InstallerStorage) (part : Device)
  : InstallerStorage :=
  if should_clear self part no_kwargs
  then set_devicetree self (recursive_remove (devicetree self) part)
  else self.

Definition is_None {A : Type} (o : option A) : bool :=
  match o with None => true | Some _ => false end.

(** One turn of the loop over the disks; the second component collects
    the names of the protected disks the warning is logged for. *)
Definition clear_disk_step (state : InstallerStorage * list string)
  (disk_ : Device) : InstallerStorage * list string :=
  let '(self, warnings) := state in
  let zerombr :=
    zero_mbr (config self) && is_None (fmt_type (format disk_)) in
  let should_clear_ := should_clear self disk_ no_kwargs in
  let self :=
    if should_clear_
    then set_devicetree self (recursive_remove (devicetree self) disk_)
    else self in
  if zerombr || should_clear_ then
    if protected disk_ then (self, warnings ++ [name disk_])
    else (set_devicetree self (initialize_disk (devicetree self) disk_),
          warnings)
  else (self, warnings).

(** [clear_partitions]: the storage object after the run, and the names
    of the disks the warning was logged for.  The closing
    [update_bootloader_disk_list] does not touch the device tree. *)
Definition clear_partitions (self : InstallerStorage)
  : InstallerStorage * list string :=
  let partitions := sorted_descending (storage_partitions self) in
  let self := List.fold_left clear_partition_step partitions self in
  let self :=
    set_devicetree self
      (remove_empty_extended_partitions (devicetree self)) in
  List.fold_left clear_disk_step (storage_disks self) (self, []).

(** The shape of a device tree: names are unique, the parents of a
    device are among its ancestors, the ancestors of an ancestor are
    ancestors, and a partition is not a whole disk. *)
Record wf_tree (tree : list Device) : Prop := {
  wf_names : List.NoDup (List.map name tree);
  wf_parents :
    forall x parent, In x tree -> In parent (parents x) ->
                     In parent (ancestors x);
  wf_closed :
    forall x y a, In x tree -> In y tree -> In (name y) (ancestors x) ->
                  In a (ancestors y) -> In a (ancestors x);
  wf_kinds :
    forall x, In x tree -> is_partition x = true -> is_disk x = false
}.

(** No extended-partition container is protected or has a protected
    dependent.  Removing a protected device is an error of the device
    tree, which the removals above leave out. *)
Definition extended_hold_nothing_protected (tree : list Device) : Prop :=
  forall p, In p tree -> is_extended p = true ->
            holds_protected tree p = false.

(** Protection keeps an extended-partition container from getting
    empty: a container that is protected, or has a protected dependent,
    has a logical partition as a child that [should_clear] does not
    accept.  An emptied container is removed whatever its flag says,
    and the removal of a protected device is the error the removals
    above leave out. *)
Definition extended_stay_nonempty (self : InstallerStorage) : Prop :=
  forall p, In p (devicetree self) -> is_extended p = true ->
            holds_protected (devicetree self) p = true ->
            exists c, In c (devicetree self) /\ In (name p) (parents c)
                      /\ is_logical c = true
                      /\ should_clear self c no_kwargs = false.

(** ** How clearing changes a device tree *)

(** [x'] is the device [x], as it was or with a fresh disklabel. *)
Definition same_device (x x' : Device) : Prop :=
  x' = x \/ (is_disk x = true /\ x' = fresh_disklabel x).

(** Every device of [tree'] is a device of [tree]. *)
Definition shrinks (tree tree' : list Device) : Prop :=
  forall x', In x' tree' -> exists x, In x tree /\ same_device x x'.





(** ** Devices and configurations of the scenarios *)

Module Fixtures.

Definition unformatted : DeviceFormat :=
  {| fmt_type := None; fmt_exists := true; fmt_hidden := false;
     fmt_linux_native := false; fmt_free := None |}.

Definition disklabel (free : Z) : DeviceFormat :=
  {| fmt_type := Some "disklabel"%string; fmt_exists := true;
     fmt_hidden := false; fmt_linux_native := false;
     fmt_free := Some free |}.

Definition ext4 (free : Z) : DeviceFormat :=
  {| fmt_type := Some "ext4"%string; fmt_exists := true;
     fmt_hidden := false; fmt_linux_native := true;
     fmt_free := Some free |}.

Definition swap : DeviceFormat :=
  {| fmt_type := Some "swap"%string; fmt_exists := true;
     fmt_hidden := false; fmt_linux_native := false; fmt_free := None |}.

Definition member (type : string) : DeviceFormat :=
  {| fmt_type := Some type; fmt_exists := true; fmt_hidden := false;
     fmt_linux_native := true; fmt_free := None |}.

(** An existing, unprotected whole disk. *)
Definition whole_disk (n : string) (is_partitioned : bool)
  (fmt : DeviceFormat) (sz : Z) : Device :=
  {| name := n; is_partition := false; is_disk := true;
     dev_exists := true; protected := false;
     partitioned := is_partitioned; disks := [n]; disk := None;
     parents := []; ancestors := []; format := fmt;
     is_magic := false; is_primary := false; is_logical := false;
     flag_lvm := false; flag_raid := false; flag_swap := false;
     size := sz; part_number := None |}.

(** An existing, unprotected primary partition of the disk [on]. *)
Definition primary_partition (n on : string) (number : Z)
  (fmt : DeviceFormat) (swap_flag : bool) (sz : Z) : Device :=
  {| name := n; is_partition := true; is_disk := false;
     dev_exists := true; protected := false; partitioned := false;
     disks := [on]; disk := Some on; parents := [on];
     ancestors := [on]; format := fmt;
     is_magic := false; is_primary := true; is_logical := false;
     flag_lvm := false; flag_raid := false; flag_swap := swap_flag;
     size := sz; part_number := Some number |}.

(** An existing, unprotected device built on other devices, such as a
    RAID array, a volume group or a logical volume. *)
Definition stacked_device (n : string) (on above_on on_disks : list string)
  (fmt : DeviceFormat) (sz : Z) : Device :=
  {| name := n; is_partition := false; is_disk := false;
     dev_exists := true; protected := false; partitioned := false;
     disks := on_disks; disk := None; parents := on;
     ancestors := on ++ above_on; format := fmt;
     is_magic := false; is_primary := false; is_logical := false;
     flag_lvm := false; flag_raid := false; flag_swap := false;
     size := sz; part_number := None |}.

Definition settings (mode : ClearPartType) (only_disks devices : list string)
  (initialize : bool) : StorageDiscoveryConfig :=
  {| clear_part_type := mode; clear_part_disks := only_disks;
     clear_part_devices := devices; initialize_disks := initialize;
     protected_dev_specs := []; zero_mbr := false;
     clear_non_existent := false |}.

(** The same settings with [clear_non_existent] set. *)
Definition settings_non_existent (mode : ClearPartType)
  : StorageDiscoveryConfig :=
  {| clear_part_type := mode; clear_part_disks := [];
     clear_part_devices := []; initialize_disks := false;
     protected_dev_specs := []; zero_mbr := false;
     clear_non_existent := true |}.

Definition storage (cfg : StorageDiscoveryConfig) (tree : list Device)
  : InstallerStorage :=
  {| config := cfg; devicetree := tree; protected_dev_names := [];
     live_backing_device := None |}.

(** Disk [sda] with a native Linux partition and a swap partition. *)
Definition sda : Device := whole_disk "sda" true (disklabel 0) 1000.
Definition sda1 : Device :=
  primary_partition "sda1" "sda" 1 (ext4 100) false 800.
Definition sda2 : Device :=
  primary_partition "sda2" "sda" 2 swap true 200.
Definition sda_tree : list Device := [sda; sda1; sda2].

(** Disk [sdb], not partitioned and without a format. *)
Definition sdb : Device := whole_disk "sdb" false unformatted 500.

(** A RAID array over partitions of two disks. *)
Definition md0 : Device :=
  stacked_device "md0" ["sda1"; "sdb1"]%string ["sda"; "sdb"]%string
    ["sda"; "sdb"]%string (ext4 50) 400.

(** A logical volume on a volume group on [sda1]. *)
Definition vg : Device :=
  stacked_device "vg" ["sda1"]%string ["sda"]%string ["sda"]%string
    unformatted 800.
Definition lv_root : Device :=
  stacked_device "vg-root" ["vg"]%string ["sda1"; "sda"]%string
    ["sda"]%string (ext4 100) 800.
Definition sda1_pv : Device :=
  primary_partition "sda1" "sda" 1 (member "lvmpv") false 1000.
Definition lvm_tree : list Device := [sda; sda1_pv; vg; lv_root].

(** Disk [sdc] whose partition [sdc1] is protected. *)
Definition sdc : Device := whole_disk "sdc" true (disklabel 0) 1000.
Definition sdc1 : Device :=
  set_protected (primary_partition "sdc1" "sdc" 1 (ext4 10) false 1000)
                true.
Definition sdc_tree : list Device := [sdc; sdc1].

(** A live image on the RAID array [md127] over [sda1] and [sdb1]. *)
Definition sdb_disk : Device := whole_disk "sdb" true (disklabel 0) 1000.
Definition raid_member (n on : string) : Device :=
  primary_partition n on 1 (member "mdmember") false 1000.
Definition md127 : Device :=
  stacked_device "md127" ["sda1"; "sdb1"]%string ["sda"; "sdb"]%string
    ["sda"; "sdb"]%string (ext4 0) 1000.
Definition live_tree : list Device :=
  [sda; sdb_disk; raid_member "sda1" "sda"; raid_member "sdb1" "sdb";
   md127].
Definition live_env : Environment :=
  {| resolve_device := fun _ _ => None;
     proc_mounts :=
       ["rootfs / rootfs rw 0 0";
        "/dev/md127 /run/initramfs/live iso9660 ro,relatime 0 0"]%string;
     udev_get_device :=
       fun _ => Some {| udev_is_partition := false;
                        udev_partition_disk := None |} |}.
Definition live_storage : InstallerStorage :=
  storage (settings CLEAR_PARTITIONS_ALL [] [] false) live_tree.

End Fixtures.

(** ** The configuration and the kickstart data *)

(** [StorageDiscoveryConfig.__init__]. *)
Definition StorageDiscoveryConfig_init : StorageDiscoveryConfig :=
  {| clear_part_type := CLEAR_PARTITIONS_DEFAULT;
     clear_part_disks := [];
     clear_part_devices := [];
     initialize_disks := false;
     protected_dev_specs := [];
     zero_mbr := false;
     clear_non_existent := false |}.

(** The properties of the disk initialization module the installer
    reads and sets. *)
Record DiskInitializationProxy : Type := {
  InitializationMode : ClearPartType;
  DrivesToClear : list string;
  DevicesToClear : list string;
  InitializeLabelsEnabled : bool;
  FormatUnrecognizedEnabled : bool
}.

(** [StorageDiscoveryConfig.update]. *)
Definition StorageDiscoveryConfig_update (self : StorageDiscoveryConfig)
  (disk_init_proxy : DiskInitializationProxy) : StorageDiscoveryConfig :=
  {| clear_part_type := InitializationMode disk_init_proxy;
     clear_part_disks := DrivesToClear disk_init_proxy;
     clear_part_devices := DevicesToClear disk_init_proxy;
     initialize_disks := InitializeLabelsEnabled disk_init_proxy;
     protected_dev_specs := protected_dev_specs self;
     zero_mbr := FormatUnrecognizedEnabled disk_init_proxy;
     clear_non_existent := clear_non_existent self |}.

(** The device of a destroy action: [device.type], [device.disk.name]
    and [device.name]. *)
Record DestroyedDevice : Type := {
  destroyed_type : string;
  destroyed_disk : string;
  destroyed_name : string
}.

Definition set_mode_and_lists (proxy : DiskInitializationProxy)
  (mode : ClearPartType) (drives devices : list string)
  : DiskInitializationProxy :=
  {| InitializationMode := mode;
     DrivesToClear := drives;
     DevicesToClear := devices;
     InitializeLabelsEnabled := InitializeLabelsEnabled proxy;
     FormatUnrecognizedEnabled := FormatUnrecognizedEnabled proxy |}.

(** The loop of [update_ksdata] over the destroy actions, on the pair
    [(cleared_partitions, partial)]. *)
Definition cleared_partitions_step (fresh_disks : list string)
  (acc : list string * bool) (device : DestroyedDevice)
  : list string * bool :=
  let '(cleared_partitions, partial) := acc in
  if String.eqb (destroyed_type device) "partition" then
    (cleared_partitions ++ [destroyed_name device],
     if negb (name_in (destroyed_disk device) fresh_disks) then true
     else partial)
  else acc.

(** The [clearpart] part of [update_ksdata]: what it leaves in the disk
    initialization module, given the devices of the destroy actions. *)
Definition update_ksdata_clearpart (self : InstallerStorage)
  (destroy_actions : list DestroyedDevice)
  (disk_init_proxy : DiskInitializationProxy) : DiskInitializationProxy :=
  let disk_init_proxy :=
    {| InitializationMode := clear_part_type (config self);
       DrivesToClear := clear_part_disks (config self);
       DevicesToClear := clear_part_devices (config self);
       InitializeLabelsEnabled := initialize_disks (config self);
       FormatUnrecognizedEnabled :=
         FormatUnrecognizedEnabled disk_init_proxy |} in
  if ClearPartType_eqb (InitializationMode disk_init_proxy)
       CLEAR_PARTITIONS_NONE
  then
    let disk_init_proxy :=
      set_mode_and_lists disk_init_proxy
        (InitializationMode disk_init_proxy) [] [] in
    let fresh_disks :=
      List.map name
        (List.filter
           (fun d => partitioned d && negb (fmt_exists (format d)))
           (storage_disks self)) in
    let '(cleared_partitions, partial) :=
      List.fold_left (cleared_partitions_step fresh_disks)
                     destroy_actions ([], false) in
    if negb (nonempty destroy_actions) then disk_init_proxy
    else if partial then
      set_mode_and_lists disk_init_proxy CLEAR_PARTITIONS_LIST
        (DrivesToClear disk_init_proxy) cleared_partitions
    else
      set_mode_and_lists disk_init_proxy CLEAR_PARTITIONS_ALL
        fresh_disks (DevicesToClear disk_init_proxy)
  else disk_init_proxy.

(** ** The free space snapshot and the free space of the file systems *)

(** Truth value of a Python dict: true when it has a key. *)
Definition dict_nonempty (m : gmap string (Z * Z)) : bool :=
  negb (bool_decide (m = ∅)).

(** The storage object together with its [_free_space_snapshot]. *)
Record SnapshotStorage : Type := {
  snapshot_of : InstallerStorage;
  _free_space_snapshot : option (gmap string (Z * Z))
}.

(** [free_space_snapshot]: the new state and the value returned; [None]
    when [get_free_space] raises. *)
Definition free_space_snapshot (self : SnapshotStorage)
  : option (SnapshotStorage * gmap string (Z * Z)) :=
  let cached :=
    match _free_space_snapshot self with
    | Some m => if dict_nonempty m then Some m else None
    | None => None
    end in
  match cached with
  | Some m =>
      Some ({| snapshot_of := snapshot_of self;
               _free_space_snapshot := Some m |}, m)
  | None =>
      match get_free_space (snapshot_of self) None None with
      | Some m =>
          Some ({| snapshot_of := snapshot_of self;
                   _free_space_snapshot := Some m |}, m)
      | None => None
      end
  end.

Definition create_free_space_snapshot (self : SnapshotStorage)
  : option (SnapshotStorage * gmap string (Z * Z)) :=
  match get_free_space (snapshot_of self) None None with
  | Some m =>
      Some ({| snapshot_of := snapshot_of self;
               _free_space_snapshot := Some m |}, m)
  | None => None
  end.

(** What [file_system_free_space] reads of a mounted device:
    [device.volume] when the device is a btrfs subvolume,
    [format.exists], [format.free] and
    [format.free_space_estimate(device.size)]. *)
Record MountedDevice : Type := {
  subvolume_of : option string;
  mounted_format_exists : bool;
  mounted_format_free : Z;
  mounted_free_space_estimate : Z
}.

(** One turn of the loop of [file_system_free_space], on the pair
    [(free, btrfs_volumes)]. *)
Definition file_system_free_space_step
  (mountpoints : gmap string MountedDevice)
  (acc : Z * list string) (mountpoint : string) : Z * list string :=
  let '(free, btrfs_volumes) := acc in
  match mountpoints !! mountpoint with
  | None => acc
  | Some device =>
      let counted :=
        if mounted_format_exists device
        then free + mounted_format_free device
        else free + mounted_free_space_estimate device in
      match subvolume_of device with
      | Some volume =>
          if name_in volume btrfs_volumes then acc
          else (counted, btrfs_volumes ++ [volume])
      | None => (counted, btrfs_volumes)
      end
  end.

Definition file_system_free_space (mountpoints : gmap string MountedDevice)
  : Z :=
  fst (List.fold_left (file_system_free_space_step mountpoints)
                      ["/"; "/usr"]%string (0, [])).

(** [update_ksdata], as far as the disk initialization module goes:
    with no kickstart data or no mount point it returns before it writes
    anything; [ksdata] is the truth value of [self.ksdata]. *)
Definition update_ksdata (ksdata : bool)
  (mountpoints : gmap string MountedDevice) (self : InstallerStorage)
  (destroy_actions : list DestroyedDevice)
  (disk_init_proxy : DiskInitializationProxy) : DiskInitializationProxy :=
  if negb ksdata || bool_decide (base.size mountpoints = 0%nat)
  then disk_init_proxy
  else update_ksdata_clearpart self destroy_actions disk_init_proxy.

(** ** NVDIMM devices to ignore *)

(** Modelled from the spec: [NVDIMM_ACTION_USE] and
    [NVDIMM_ACTION_RECONFIGURE] are pykickstart's constants; they are
    distinct, and a kickstart action may be neither. *)
Inductive NvdimmAction : Type :=
  | NVDIMM_ACTION_USE
  | NVDIMM_ACTION_RECONFIGURE
  | NVDIMM_ACTION_OTHER.

(** An entry of [nvdimm_ksdata.actionList]; [blockdevs] is empty when
    the action has none. *)
Record NvdimmActionData : Type := {
  nvdimm_action : NvdimmAction;
  nvdimm_namespace : option string;
  nvdimm_blockdevs : list string
}.

(** A value of [nvdimm.namespaces]: whether [mode] is
    [NVDIMMNamespaceMode.SECTOR], and [blockdev]. *)
Record NamespaceInfo : Type := {
  sector_mode : bool;
  blockdev : option string
}.

(** Truth value of a Python string or [None]. *)
Definition truthy (o : option string) : bool :=
  match o with
  | Some s => negb (String.eqb s EmptyString)
  | None => false
  end.

(** The namespaces and block devices the kickstart data allow. *)
Definition allow_action (allowed : gset string * gset string)
  (action : NvdimmActionData) : gset string * gset string :=
  let '(ks_allowed_namespaces, ks_allowed_blockdevs) := allowed in
  let '(ks_allowed_namespaces, ks_allowed_blockdevs) :=
    match nvdimm_action action with
    | NVDIMM_ACTION_USE =>
        (match nvdimm_namespace action with
         | Some ns => if truthy (Some ns) then {[ns]} ∪ ks_allowed_namespaces
                      else ks_allowed_namespaces
         | None => ks_allowed_namespaces
         end,
         list_to_set (nvdimm_blockdevs action) ∪ ks_allowed_blockdevs)
    | _ => (ks_allowed_namespaces, ks_allowed_blockdevs)
    end in
  match nvdimm_action action with
  | NVDIMM_ACTION_RECONFIGURE =>
      (match nvdimm_namespace action with
       | Some ns => {[ns]} ∪ ks_allowed_namespaces
       | None => ks_allowed_namespaces
       end, ks_allowed_blockdevs)
  | _ => (ks_allowed_namespaces, ks_allowed_blockdevs)
  end.

Definition ks_allowed (nvdimm_ksdata : option (list NvdimmActionData))
  : gset string * gset string :=
  match nvdimm_ksdata with
  | Some actionList => List.fold_left allow_action actionList (∅, ∅)
  | None => (∅, ∅)
  end.

(** One turn of the loop over [nvdimm.namespaces.items()]. *)
Definition ignore_namespace (allowed : gset string * gset string)
  (ignored_blockdevs : gset string) (item : string * NamespaceInfo)
  : gset string :=
  let '(ns_name, ns_info) := item in
  let allowed_here :=
    sector_mode ns_info
    && (bool_decide (ns_name ∈ fst allowed)
        || match blockdev ns_info with
           | Some b => bool_decide (b ∈ snd allowed)
           | None => false
           end) in
  if allowed_here then ignored_blockdevs
  else match blockdev ns_info with
       | Some b => if truthy (Some b) then {[b]} ∪ ignored_blockdevs
                   else ignored_blockdevs
       | None => ignored_blockdevs
       end.

Definition get_ignored_nvdimm_blockdevs
  (namespaces : list (string * NamespaceInfo))
  (nvdimm_ksdata : option (list NvdimmActionData)) : gset string :=
  List.fold_left (ignore_namespace (ks_allowed nvdimm_ksdata))
                 namespaces ∅.

(** ** Boot loader images (pyanaconda/bootloader/image.py) *)

Record LinuxBootLoaderImage : Type := {
  label : option string;
  short_label : option string;
  device : option string;
  version : option string;
  _kernel : option string;
  _initrd : option string
}.

(** [LinuxBootLoaderImage.__init__]. *)
Definition LinuxBootLoaderImage_init (device_ label_ short_ version_
  : option string) : LinuxBootLoaderImage :=
  {| label := label_; short_label := short_; device := device_;
     version := version_; _kernel := None; _initrd := None |}.

Definition kernel (self : LinuxBootLoaderImage) : option string :=
  let filename := _kernel self in
  match version self with
  | Some v =>
      if truthy (Some v) && negb (truthy filename)
      then Some ("vmlinuz-" +:+ v)
      else filename
  | None => filename
  end.

Definition initrd (self : LinuxBootLoaderImage) : option string :=
  let filename := _initrd self in
  match version self with
  | Some v =>
      if truthy (Some v) && negb (truthy filename)
      then Some ("initramfs-" +:+ v +:+ ".img")
      else filename
  | None => filename
  end.

(** ** Host names and container names *)

(** What [_get_hostname] reads of the network module. *)
Record NetworkProxy : Type := {
  Hostname : option string;
  GetCurrentHostname : option string
}.

(** [hostname in ignored_hostnames]. *)
Definition ignored_hostname (hostname : option string) : bool :=
  match hostname with
  | None => true
  | Some s =>
      String.eqb s EmptyString || String.eqb s "localhost"
      || String.eqb s "localhost.localdomain"
  end.

Definition _get_hostname (network_proxy : NetworkProxy) : option string :=
  let hostname := Hostname network_proxy in
  let hostname :=
    if ignored_hostname hostname then GetCurrentHostname network_proxy
    else hostname in
  if ignored_hostname hostname then None else hostname.

(** [s.split('.')[0]]. *)
Fixpoint before_dot (s : string) : string :=
  match s with
  | EmptyString => EmptyString
  | String c rest =>
      if Ascii.eqb c "."%char then EmptyString
      else String c (before_dot rest)
  end.

(** [s.lower()], within ASCII. *)
Definition lower_ascii (c : ascii) : ascii :=
  let n := nat_of_ascii c in
  if ((65 <=? n) && (n <=? 90))%nat then ascii_of_nat (n + 32) else c.

Fixpoint lower (s : string) : string :=
  match s with
  | EmptyString => EmptyString
  | String c rest => String (lower_ascii c) (lower rest)
  end.

(** [_get_container_name_template]; [safe_device_name] is blivet's and
    [is_image] is [conf.target.is_image]. *)
Definition _get_container_name_template
  (safe_device_name : string -> string) (is_image : bool)
  (network_proxy : NetworkProxy) (prefix : option string) : string :=
  let prefix :=
    match prefix with
    | Some p => if truthy (Some p) then p else EmptyString
    | None => EmptyString
    end in
  let hostname := _get_hostname network_proxy in
  let template :=
    match hostname with
    | Some h =>
        if truthy (Some h)
        then safe_device_name (prefix +:+ "_" +:+ lower (before_dot h))
        else prefix
    | None => prefix
    end in
  if is_image then template +:+ "_image" else template.

(** ** The checks of [should_clear], one by one *)

Definition effective_clear_part_devices (self : InstallerStorage)
  (kwargs : ShouldClearKwargs) : list string :=
  kwargs_get (kw_clear_part_devices kwargs) (clear_part_devices (config self)).

(** The check on devices and formats that do not exist yet. *)
Definition existence_rejects (self : InstallerStorage) (device : Device)
  : bool :=
  negb (clear_non_existent (config self))
  && ((is_disk device && negb (fmt_exists (format device)))
      || (negb (is_disk device) && negb (dev_exists device))).

(** The checks made under the modes NONE and DEFAULT. *)
Definition none_default_rejects (self : InstallerStorage)
  (mode : ClearPartType) (device : Device) : bool :=
  is_none_or_default mode
  && (negb (initialize_disks (config self)) || negb (is_disk device)
      || negb (empty_device self device)).

(** The checks made on a partition. *)
Definition partition_rejects (mode : ClearPartType) (device : Device)
  : bool :=
  is_magic device
  || (negb (is_primary device) && negb (is_logical device))
  || (ClearPartType_eqb mode CLEAR_PARTITIONS_LINUX
      && negb (fmt_linux_native (format device))
      && negb (flag_lvm device)
      && negb (flag_raid device)
      && negb (flag_swap device)).

(** The checks made on a whole disk. *)
Definition disk_rejects (self : InstallerStorage) (mode : ClearPartType)
  (device : Device) : bool :=
  (partitioned device
   && negb (ClearPartType_eqb mode CLEAR_PARTITIONS_ALL)
   && negb (empty_device self device))
  || fmt_hidden (format device)
  || (ClearPartType_eqb mode CLEAR_PARTITIONS_LINUX
      && negb ((initialize_disks (config self) && empty_device self device)
               || (negb (partitioned device)
                   && fmt_linux_native (format device)))).

Definition kind_rejects (self : InstallerStorage) (mode : ClearPartType)
  (device : Device) : bool :=
  if is_partition device then partition_rejects mode device
  else if is_disk device then disk_rejects self mode device
  else false.

(** The check made under the mode LIST. *)
Definition list_rejects (mode : ClearPartType) (devices : list string)
  (device : Device) : bool :=
  ClearPartType_eqb mode CLEAR_PARTITIONS_LIST
  && negb (name_in (name device) devices).

(** The snapshot state after the device tree has changed. *)
Definition change_devicetree (self : SnapshotStorage) (tree : list Device)
  : SnapshotStorage :=
  {| snapshot_of := set_devicetree (snapshot_of self) tree;
     _free_space_snapshot := _free_space_snapshot self |}.

(** The partitions of a disk [get_free_space] looks at. *)
Definition partitions_on (self : InstallerStorage) (disk_ : Device)
  : list Device :=
  List.filter (on_disk disk_) (storage_partitions self).

(** The size of a device and the free space of its format are not
    negative. *)
Definition sizes_nonnegative (d : Device) : Prop :=
  0 <= size d /\ forall f, fmt_free (format d) = Some f -> 0 <= f.

(** ** What the loops come to *)

(** The destroy actions [update_ksdata] counts: those on partitions. *)
Definition destroyed_partition (device : DestroyedDevice) : bool :=
  String.eqb (destroyed_type device) "partition".

(** [fresh_disks] of [update_ksdata]. *)
Definition fresh_disks (self : InstallerStorage) : list string :=
  List.map name
    (List.filter (fun d => partitioned d && negb (fmt_exists (format d)))
                 (storage_disks self)).

(** The kickstart data name the namespace in an action that reconfigures
    it, or in an action that uses it under a name that is not empty. *)
Definition allows_namespace (nvdimm_ksdata : option (list NvdimmActionData))
  (ns : string) : Prop :=
  exists actionList action,
    nvdimm_ksdata = Some actionList /\ In action actionList
    /\ nvdimm_namespace action = Some ns
    /\ (nvdimm_action action = NVDIMM_ACTION_RECONFIGURE
        \/ (nvdimm_action action = NVDIMM_ACTION_USE /\ ns <> EmptyString)).

(** The kickstart data name the block device in an action that uses
    it. *)
Definition allows_blockdev (nvdimm_ksdata : option (list NvdimmActionData))
  (b : string) : Prop :=
  exists actionList action,
    nvdimm_ksdata = Some actionList /\ In action actionList
    /\ nvdimm_action action = NVDIMM_ACTION_USE
    /\ In b (nvdimm_blockdevs action).

(** [d'] is the device [d], as it was or with [protected] set; it is set
    only on a device whose name has the property [P]. *)
Definition marked (P : string -> Prop) (d d' : Device) : Prop :=
  d' = d \/ (d' = set_protected d true /\ P (name d)).

(** The names [reset] has in [protected_dev_names] when it starts to
    mark the devices. *)
Definition protected_names_found (env : Environment)
  (self : InstallerStorage) : list string :=
  protected_dev_names
    (_find_live_backing_device env
       (_resolve_protected_device_specs env
          (set_protected_dev_names self []))).

(** ** More devices and configurations *)

Module Samples.

(** The magic first partition of a Mac disk label, and an extended
    partition. *)
Definition magic_partition : Device :=
  {| name := "sde1"; is_partition := true; is_disk := false;
     dev_exists := true; protected := false; partitioned := false;
     disks := ["sde"%string]; disk := Some "sde"%string;
     parents := ["sde"%string]; ancestors := ["sde"%string];
     format := Fixtures.unformatted;
     is_magic := true; is_primary := true; is_logical := false;
     flag_lvm := false; flag_raid := false; flag_swap := false;
     size := 1; part_number := Some 1 |}.

Definition sde : Device :=
  Fixtures.whole_disk "sde" true (Fixtures.disklabel 20) 1000.

(** A member disk of a multipath device, with a hidden format. *)
Definition multipath_member : Device :=
  Fixtures.whole_disk "sdf" false
    {| fmt_type := Some "multipath_member"%string; fmt_exists := true;
       fmt_hidden := true; fmt_linux_native := false; fmt_free := None |}
    1000.

(** Disk [sdd] with two native Linux partitions. *)
Definition sdd : Device :=
  Fixtures.whole_disk "sdd" true (Fixtures.disklabel 10) 1000.
Definition sdd1 : Device :=
  Fixtures.primary_partition "sdd1" "sdd" 1 (Fixtures.ext4 30) false 400.
Definition sdd2 : Device :=
  Fixtures.primary_partition "sdd2" "sdd" 2 (Fixtures.ext4 50) false 600.
Definition sdd_tree : list Device := [sdd; sdd1; sdd2].

(** A partition that is planned and not on the disk yet. *)
Definition planned_partition : Device :=
  {| name := "sdd3"; is_partition := true; is_disk := false;
     dev_exists := false; protected := false; partitioned := false;
     disks := ["sdd"%string]; disk := Some "sdd"%string;
     parents := ["sdd"%string]; ancestors := ["sdd"%string];
     format := Fixtures.ext4 0;
     is_magic := false; is_primary := true; is_logical := false;
     flag_lvm := false; flag_raid := false; flag_swap := false;
     size := 100; part_number := None |}.

Definition all_given (mode : ClearPartType) (only_disks devices : list string)
  : ShouldClearKwargs :=
  {| kw_clear_part_type := Some mode;
     kw_clear_part_disks := Some only_disks;
     kw_clear_part_devices := Some devices |}.

(** Disk [sdh] with a primary partition and an extended partition
    [sdh4]; [sdh5] is the logical partition in it, and is protected. *)
Definition sdh : Device :=
  Fixtures.whole_disk "sdh" true (Fixtures.disklabel 0) 1000.
Definition extended_partition (is_protected : bool) : Device :=
  {| name := "sdh4"; is_partition := true; is_disk := false;
     dev_exists := true; protected := is_protected; partitioned := false;
     disks := ["sdh"%string]; disk := Some "sdh"%string;
     parents := ["sdh"%string]; ancestors := ["sdh"%string];
     format := Fixtures.unformatted;
     is_magic := false; is_primary := false; is_logical := false;
     flag_lvm := false; flag_raid := false; flag_swap := false;
     size := 600; part_number := Some 4 |}.

End Samples.

(** * Properties *)

(** ** Names, modes and lists *)

Lemma name_in_In n names : name_in n names = true <-> In n names.
Proof.
  unfold name_in. rewrite List.existsb_exists. split.
  - intros [x [Hx He]]. apply String.eqb_eq in He. now subst.
  - intros H. exists n. split; [assumption | apply String.eqb_refl].
Qed.

Lemma name_in_not_In n names : name_in n names = false <-> ~ In n names.
Proof.
  rewrite <- name_in_In. destruct (name_in n names); split; intros H;
    try reflexivity; try discriminate; try (intros H'; discriminate).
  exfalso. apply H. reflexivity.
Qed.

Lemma nonempty_true {A : Type} (l : list A) : nonempty l = true <-> l <> [].
Proof. destruct l; simpl; split; congruence. Qed.

Lemma ClearPartType_eqb_eq a b : ClearPartType_eqb a b = true <-> a = b.
Proof. destruct a, b; simpl; split; congruence. Qed.

Lemma existsb_protected_In (l : list Device) :
  List.existsb protected l = true <->
  exists d, In d l /\ protected d = true.
Proof. apply List.existsb_exists. Qed.

Lemma holds_protected_true tree device :
  holds_protected tree device = true <->
  protected device = true \/
  exists d, In d (get_dependent_devices tree device) /\ protected d = true.
Proof.
  unfold holds_protected. rewrite orb_true_iff, existsb_protected_In.
  reflexivity.
Qed.

(** ** The string functions and the sort on examples *)

Example contains_live_mountpoint :
  contains live_mountpoint
    "/dev/sr0 /run/initramfs/live iso9660 ro,relatime 0 0" = true
  /\ contains live_mountpoint "/dev/sda2 / ext4 rw,relatime 0 0" = false.
Proof. split; reflexivity. Qed.

Example first_word_of_mount :
  first_word "/dev/sr0 /run/initramfs/live iso9660 ro 0 0"
  = Some "/dev/sr0"%string
  /\ first_word "   " = None.
Proof. split; reflexivity. Qed.

Example last_component_of_path :
  last_component "/dev/mapper/live-rw" = "live-rw"%string
  /\ last_component "sr0" = "sr0"%string
  /\ last_component "/dev/" = EmptyString.
Proof. repeat split; reflexivity. Qed.

Example sorted_descending_partitions :
  List.map name
    (sorted_descending
       [Fixtures.sda1; Fixtures.raid_member "sdb1" "sdb"; Fixtures.sda2])
  = ["sda2"; "sda1"; "sdb1"]%string.
Proof. reflexivity. Qed.

(** ** The shape of [should_clear] *)

Lemma should_clear_holds_protected self device kwargs :
  holds_protected (devicetree self) device = true ->
  should_clear self device kwargs = false.
Proof.
  unfold holds_protected. intros H. unfold should_clear. cbv zeta.
  rewrite H.
  repeat match goal with
    | |- (if ?c then false else _) = false => destruct c; [reflexivity |]
    end.
  reflexivity.
Qed.

(** C1.  [should_clear] returns false for every device that is protected
    or has a protected dependent, whatever the clearing mode and the
    rest of the configuration and of the keyword arguments. *)
Theorem should_clear_protected self device kwargs :
  protected device = true \/
  (exists d, In d (get_dependent_devices (devicetree self) device)
             /\ protected d = true) ->
  should_clear self device kwargs = false.
Proof.
  intros H. apply should_clear_holds_protected.
  apply holds_protected_true. exact H.
Qed.

(** The protected partition [sdc1] and its disk [sdc] under mode ALL. *)
Lemma should_clear_protected_witness :
  should_clear
    (Fixtures.storage (Fixtures.settings CLEAR_PARTITIONS_ALL [] [] false)
                      Fixtures.sdc_tree)
    Fixtures.sdc no_kwargs = false
  /\ should_clear
    (Fixtures.storage (Fixtures.settings CLEAR_PARTITIONS_ALL [] [] false)
                      Fixtures.sdc_tree)
    Fixtures.sdc1 no_kwargs = false.
Proof.
  split.
  - apply should_clear_protected. right. exists Fixtures.sdc1.
    split; [simpl; left; reflexivity | reflexivity].
  - apply should_clear_protected. left. reflexivity.
Defined.

(** ** The disk scope *)

Lemma disk_scope_rejects_spec clear_part_disks device :
  disk_scope_rejects clear_part_disks device = true <->
  clear_part_disks <> [] /\
  exists n, In n (disks device) /\ ~ In n clear_part_disks.
Proof.
  unfold disk_scope_rejects. rewrite List.existsb_exists. split.
  - intros [n [Hn Hc]]. apply andb_true_iff in Hc as [Hne Hout].
    apply nonempty_true in Hne. apply negb_true_iff in Hout.
    apply name_in_not_In in Hout. eauto.
  - intros [Hne [n [Hn Hout]]]. exists n. split; [assumption |].
    apply andb_true_iff. split.
    + now apply nonempty_true.
    + apply negb_true_iff. now apply name_in_not_In.
Qed.

Lemma should_clear_disk_scope self device kwargs :
  disk_scope_rejects (effective_clear_part_disks self kwargs) device = true ->
  should_clear self device kwargs = false.
Proof.
  unfold effective_clear_part_disks, should_clear. cbv zeta.
  intros H. rewrite H. reflexivity.
Qed.

(** C2, as the specification states it, fails: the array [md0] lies on
    [sda] and [sdb]; with only [sda] in [clear_part_disks] one of its
    disks is in the list, and the disk scope still rejects it. *)
Lemma disk_scope_counterexample :
  ~ (disk_scope_rejects ["sda"%string] Fixtures.md0 = true <->
     (forall n, In n (disks Fixtures.md0) -> ~ In n ["sda"%string])).
Proof.
  intros [H _].
  apply (H eq_refl "sda"%string); simpl; left; reflexivity.
Qed.

(** C2, amended.  The disk scope rejects a device exactly when
    [clear_part_disks] is not empty and some disk of the device is
    missing from it, and [should_clear] is false then; a device all of
    whose disks are listed passes, and for a device with a single disk
    that is the case when this disk is listed. *)
Theorem disk_scope_rejects_some_disk_outside self device kwargs :
  let only_disks := effective_clear_part_disks self kwargs in
  (disk_scope_rejects only_disks device = true <->
   only_disks <> [] /\ exists n, In n (disks device) /\ ~ In n only_disks)
  /\ (disk_scope_rejects only_disks device = true ->
      should_clear self device kwargs = false)
  /\ ((forall n, In n (disks device) -> In n only_disks) ->
      disk_scope_rejects only_disks device = false)
  /\ (forall n, disks device = [n] -> only_disks <> [] ->
      (disk_scope_rejects only_disks device = true <-> ~ In n only_disks)).
Proof.
  intros only_disks. split; [| split; [| split]].
  - apply disk_scope_rejects_spec.
  - apply should_clear_disk_scope.
  - intros Hall. destruct (disk_scope_rejects only_disks device) eqn:E;
      [| reflexivity].
    apply disk_scope_rejects_spec in E as [_ [n [Hn Hout]]].
    exfalso. apply Hout. now apply Hall.
  - intros n Hone Hne. split.
    + intros E. apply disk_scope_rejects_spec in E as [_ [m [Hm Hout]]].
      rewrite Hone in Hm. destruct Hm as [-> | []]. exact Hout.
    + intros Hout. apply disk_scope_rejects_spec. split; [assumption |].
      exists n. rewrite Hone. split; [left; reflexivity | assumption].
Qed.

Lemma disk_scope_rejects_some_disk_outside_witness :
  disk_scope_rejects ["sda"%string] Fixtures.md0 = true
  /\ should_clear
       (Fixtures.storage
          (Fixtures.settings CLEAR_PARTITIONS_ALL ["sda"%string] [] false)
          [Fixtures.md0])
       Fixtures.md0 no_kwargs = false.
Proof.
  pose proof (disk_scope_rejects_some_disk_outside
                (Fixtures.storage
                   (Fixtures.settings CLEAR_PARTITIONS_ALL ["sda"%string] []
                                      false)
                   [Fixtures.md0])
                Fixtures.md0 no_kwargs) as [_ [H _]].
  split; [reflexivity | apply H; reflexivity].
Defined.

(** ** Modes NONE and DEFAULT *)

Lemma empty_device_spec self device :
  empty_device self device = true <->
  if partitioned device
  then forall c, In c (children (devicetree self) device) ->
                 is_magic c = true
  else fmt_type (format device) = None.
Proof.
  unfold empty_device. destruct (partitioned device).
  - apply List.forallb_forall.
  - destruct (fmt_type (format device)); split; congruence.
Qed.

(** C3.  Under mode NONE or DEFAULT [should_clear] is true only for a
    whole disk that is empty, and only when [initialize_disks] is set,
    where a partitioned device is empty when all its children are magic
    partitions and another device when it has no format.  For a whole
    disk that is not partitioned and has no format (and that is in scope,
    has an existing, visible format and holds nothing protected, as in
    the scenario) [should_clear] is the value of [initialize_disks]. *)
Theorem should_clear_none_default self device kwargs :
  is_none_or_default (effective_clear_part_type self kwargs) = true ->
  (should_clear self device kwargs = true ->
   is_disk device = true /\ initialize_disks (config self) = true
   /\ empty_device self device = true)
  /\ (empty_device self device = true <->
      if partitioned device
      then forall c, In c (children (devicetree self) device) ->
                     is_magic c = true
      else fmt_type (format device) = None)
  /\ (is_disk device = true -> is_partition device = false ->
      partitioned device = false -> fmt_type (format device) = None ->
      fmt_exists (format device) = true ->
      fmt_hidden (format device) = false ->
      disk_scope_rejects (effective_clear_part_disks self kwargs) device
      = false ->
      holds_protected (devicetree self) device = false ->
      should_clear self device kwargs = initialize_disks (config self)).
Proof.
  unfold effective_clear_part_type, effective_clear_part_disks.
  intros Hmode. split; [| split].
  - unfold should_clear. cbv zeta. rewrite Hmode. simpl.
    destruct (disk_scope_rejects _ device); [discriminate |].
    destruct (negb (clear_non_existent (config self)) && _);
      [discriminate |].
    destruct (initialize_disks (config self)), (is_disk device); simpl;
      try discriminate.
    destruct (empty_device self device); simpl; [| discriminate].
    intros _. repeat split.
  - apply empty_device_spec.
  - intros Hdisk Hpart Hunpart Htype Hexists Hhidden Hscope Hprot.
    unfold holds_protected in Hprot.
    assert (Hempty : empty_device self device = true).
    { apply empty_device_spec. rewrite Hunpart. exact Htype. }
    unfold should_clear. cbv zeta.
    rewrite Hscope, Hmode, Hdisk, Hpart, Hexists, Hhidden, Hempty, Hprot,
      Hunpart.
    destruct (kwargs_get (kw_clear_part_type kwargs) _);
      try discriminate Hmode;
      destruct (clear_non_existent (config self)),
        (initialize_disks (config self)); reflexivity.
Qed.

(** Disk [sdb] under mode DEFAULT, with and without [initialize_disks]. *)
Lemma should_clear_none_default_witness :
  should_clear
    (Fixtures.storage (Fixtures.settings CLEAR_PARTITIONS_DEFAULT [] [] true)
                      [Fixtures.sdb])
    Fixtures.sdb no_kwargs = true
  /\ should_clear
    (Fixtures.storage (Fixtures.settings CLEAR_PARTITIONS_DEFAULT [] [] false)
                      [Fixtures.sdb])
    Fixtures.sdb no_kwargs = false.
Proof.
  split.
  - apply (should_clear_none_default
             (Fixtures.storage
                (Fixtures.settings CLEAR_PARTITIONS_DEFAULT [] [] true)
                [Fixtures.sdb])
             Fixtures.sdb no_kwargs eq_refl); reflexivity.
  - apply (should_clear_none_default
             (Fixtures.storage
                (Fixtures.settings CLEAR_PARTITIONS_DEFAULT [] [] false)
                [Fixtures.sdb])
             Fixtures.sdb no_kwargs eq_refl); reflexivity.
Defined.

(** ** Mode LINUX *)

Lemma should_clear_linux_partition_only_if self p kwargs :
  effective_clear_part_type self kwargs = CLEAR_PARTITIONS_LINUX ->
  is_partition p = true ->
  should_clear self p kwargs = true ->
  fmt_linux_native (format p) = true \/ flag_lvm p = true
  \/ flag_raid p = true \/ flag_swap p = true.
Proof.
  unfold effective_clear_part_type, should_clear. cbv zeta.
  intros -> -> . simpl.
  destruct (fmt_linux_native (format p)); [now left |].
  destruct (flag_lvm p); [now right; left |].
  destruct (flag_raid p); [now right; right; left |].
  destruct (flag_swap p); [now right; right; right |].
  simpl. rewrite !orb_true_r.
  repeat match goal with
    | |- (if ?c then false else _) = true -> _ => destruct c; [discriminate |]
    end.
  discriminate.
Qed.

Lemma should_clear_linux_partition_if self p kwargs :
  effective_clear_part_type self kwargs = CLEAR_PARTITIONS_LINUX ->
  is_partition p = true ->
  dev_exists p = true -> is_disk p = false ->
  is_magic p = false ->
  is_primary p = true \/ is_logical p = true ->
  disk_scope_rejects (effective_clear_part_disks self kwargs) p = false ->
  holds_protected (devicetree self) p = false ->
  fmt_linux_native (format p) = true \/ flag_lvm p = true
  \/ flag_raid p = true \/ flag_swap p = true ->
  should_clear self p kwargs = true.
Proof.
  unfold effective_clear_part_type, effective_clear_part_disks,
    holds_protected, should_clear. cbv zeta.
  intros -> -> Hexists Hdisk Hmagic Hkind -> -> Hmark.
  rewrite Hexists, Hdisk, Hmagic. simpl.
  rewrite andb_false_r. simpl.
  assert (Hk : negb (is_primary p) && negb (is_logical p) = false).
  { destruct Hkind as [-> | ->]; simpl;
      [reflexivity | apply andb_false_r]. }
  rewrite Hk. simpl.
  assert (Hm : negb (fmt_linux_native (format p)) && negb (flag_lvm p)
               && negb (flag_raid p) && negb (flag_swap p) = false).
  { destruct Hmark as [-> | [-> | [-> | ->]]]; simpl;
      rewrite ?andb_false_r; reflexivity. }
  rewrite Hm. reflexivity.
Qed.

(** C4.  Under mode LINUX [should_clear] is false for an existing,
    unprotected partition in scope that is primary or logical and not
    magic, unless its format is native to Linux or it carries the LVM,
    the RAID or the swap flag; with such a mark, and no protected
    dependent, it is true.  On disk [sda] with the native Linux
    partition [sda1] and the swap partition [sda2], under mode LINUX and
    with no disk list, [sda1] and [sda2] are to be cleared and [sda] is
    not. *)
Theorem should_clear_linux_partition :
  (forall self p kwargs,
     effective_clear_part_type self kwargs = CLEAR_PARTITIONS_LINUX ->
     is_partition p = true -> is_disk p = false ->
     dev_exists p = true -> protected p = false ->
     is_magic p = false ->
     is_primary p = true \/ is_logical p = true ->
     disk_scope_rejects (effective_clear_part_disks self kwargs) p = false ->
     (should_clear self p kwargs = true ->
      fmt_linux_native (format p) = true \/ flag_lvm p = true
      \/ flag_raid p = true \/ flag_swap p = true)
     /\ (holds_protected (devicetree self) p = false ->
         fmt_linux_native (format p) = true \/ flag_lvm p = true
         \/ flag_raid p = true \/ flag_swap p = true ->
         should_clear self p kwargs = true))
  /\ (let self :=
        Fixtures.storage
          (Fixtures.settings CLEAR_PARTITIONS_LINUX [] [] false)
          Fixtures.sda_tree in
      should_clear self Fixtures.sda1 no_kwargs = true
      /\ should_clear self Fixtures.sda2 no_kwargs = true
      /\ should_clear self Fixtures.sda no_kwargs = false).
Proof.
  split.
  - intros self p kwargs Hmode Hpart Hdisk Hexists Hprot Hmagic Hkind Hscope.
    split.
    + now apply should_clear_linux_partition_only_if.
    + intros Hnone Hmark. now apply should_clear_linux_partition_if.
  - repeat split; reflexivity.
Qed.

(** The swap partition [sda2]: cleared, and it carries the swap flag. *)
Lemma should_clear_linux_partition_witness :
  flag_swap Fixtures.sda2 = true
  /\ should_clear
       (Fixtures.storage
          (Fixtures.settings CLEAR_PARTITIONS_LINUX [] [] false)
          Fixtures.sda_tree)
       Fixtures.sda2 no_kwargs = true.
Proof.
  split; [reflexivity |].
  apply (proj1 should_clear_linux_partition
           (Fixtures.storage
              (Fixtures.settings CLEAR_PARTITIONS_LINUX [] [] false)
              Fixtures.sda_tree)
           Fixtures.sda2 no_kwargs);
    try reflexivity.
  - left. reflexivity.
  - right. right. right. reflexivity.
Defined.

(** ** Mode ALL *)

Lemma should_clear_all_of_any self device kwargs m :
  should_clear (set_clear_part_type self m) device kwargs = true ->
  should_clear (set_clear_part_type self CLEAR_PARTITIONS_ALL) device kwargs
  = true.
Proof.
  unfold should_clear, empty_device. cbv zeta. simpl.
  destruct (kw_clear_part_type kwargs) as [t |]; simpl; [tauto |].
  destruct (disk_scope_rejects _ device); [discriminate |].
  destruct (negb (clear_non_existent (config self)) && _);
    [discriminate |].
  destruct (is_none_or_default m && (_ || _)); [discriminate |].
  destruct (is_none_or_default m && negb _); [discriminate |].
  destruct (protected device || _).
  { destruct (if is_partition device then _ else _); discriminate. }
  destruct (is_partition device).
  - destruct (is_magic device); [discriminate |].
    destruct (negb (is_primary device) && negb (is_logical device));
      [discriminate |].
    reflexivity.
  - destruct (is_disk device); [| reflexivity].
    destruct (fmt_hidden (format device)).
    + rewrite !orb_true_r. simpl. discriminate.
    + rewrite !andb_false_r. reflexivity.
Qed.

(** C5.  A device [should_clear] accepts under mode LINUX, NONE or
    DEFAULT, it accepts under mode ALL, the rest of the configuration and
    the keyword arguments being the same. *)
Theorem should_clear_mode_monotone self device kwargs m :
  m = CLEAR_PARTITIONS_LINUX \/ m = CLEAR_PARTITIONS_NONE
  \/ m = CLEAR_PARTITIONS_DEFAULT ->
  should_clear (set_clear_part_type self m) device kwargs = true ->
  should_clear (set_clear_part_type self CLEAR_PARTITIONS_ALL) device kwargs
  = true.
Proof. intros _. apply should_clear_all_of_any. Qed.

(** Partition [sda1], cleared under mode LINUX and under mode ALL. *)
Lemma should_clear_mode_monotone_witness :
  should_clear
    (set_clear_part_type
       (Fixtures.storage
          (Fixtures.settings CLEAR_PARTITIONS_DEFAULT [] [] false)
          Fixtures.sda_tree) CLEAR_PARTITIONS_ALL)
    Fixtures.sda1 no_kwargs = true.
Proof.
  apply (should_clear_mode_monotone _ _ _ CLEAR_PARTITIONS_LINUX).
  - left. reflexivity.
  - reflexivity.
Defined.

(** ** Free space *)

Section FreeSpace.

Variable self : InstallerStorage.
Variable mode : ClearPartType.

Lemma get_free_space_loop_cons d ds (free : gmap string (Z * Z)) :
  get_free_space_loop self mode (d :: ds) free =
  match disk_free_space self mode d with
  | None => None
  | Some entry =>
      get_free_space_loop self mode ds (<[name d := entry]> free)
  end.
Proof.
  unfold get_free_space_loop. simpl.
  destruct (disk_free_space self mode d); [reflexivity |].
  induction ds as [| x ds IH]; [reflexivity | exact IH].
Qed.

(** The loop ends normally when every disk has an entry. *)
Lemma get_free_space_loop_total ds :
  (forall d, In d ds -> disk_free_space self mode d <> None) ->
  forall free : gmap string (Z * Z),
  exists result, get_free_space_loop self mode ds free = Some result.
Proof.
  induction ds as [| d ds IH]; intros Hall free.
  - exists free. reflexivity.
  - rewrite get_free_space_loop_cons.
    destruct (disk_free_space self mode d) as [entry |] eqn:E.
    + apply IH. intros d' Hd'. apply Hall. now right.
    + exfalso. apply (Hall d); [now left | exact E].
Qed.

(** Names no disk of the list has keep their entry. *)
Lemma get_free_space_loop_other ds :
  forall (free result : gmap string (Z * Z)) (n : string),
  get_free_space_loop self mode ds free = Some result ->
  (forall d, In d ds -> name d <> n) ->
  result !! n = free !! n.
Proof.
  induction ds as [| d ds IH]; intros free result n Hrun Hother.
  - injection Hrun as <-. reflexivity.
  - rewrite get_free_space_loop_cons in Hrun.
    destruct (disk_free_space self mode d) as [entry |]; [| discriminate].
    rewrite (IH _ _ n Hrun).
    + apply lookup_insert_ne. apply Hother. now left.
    + intros d' Hd'. apply Hother. now right.
Qed.

(** The entry under the name of a disk is the one the loop body
    computes for it, when no other disk of the list has its name. *)
Lemma get_free_space_loop_lookup ds :
  forall (free result : gmap string (Z * Z)) (d : Device),
  get_free_space_loop self mode ds free = Some result ->
  In d ds ->
  (forall d', In d' ds -> name d' = name d -> d' = d) ->
  result !! name d = disk_free_space self mode d.
Proof.
  induction ds as [| x ds IH]; intros free result d Hrun Hin Huniq.
  - destruct Hin.
  - rewrite get_free_space_loop_cons in Hrun.
    destruct (disk_free_space self mode x) as [entry |] eqn:E;
      [| discriminate].
    destruct (List.in_dec
                (fun a b : string => String.string_dec a b)
                (name d) (List.map name ds)) as [Hlater | Hlast].
    + apply List.in_map_iff in Hlater as [d' [Hname Hd']].
      assert (d' = d) by (apply Huniq; [now right | exact Hname]).
      subst d'. apply (IH _ _ d Hrun Hd').
      intros d' Hd'' Hn. apply Huniq; [now right | exact Hn].
    + assert (x = d).
      { destruct Hin as [-> | Hin]; [reflexivity |].
        exfalso. apply Hlast. now apply List.in_map. }
      subst x. rewrite (get_free_space_loop_other _ _ _ _ Hrun).
      * rewrite E. apply lookup_insert_eq.
      * intros d' Hd' Hn. apply Hlast. rewrite <- Hn.
        now apply List.in_map.
Qed.

(** A disk has an entry unless it is partitioned, not to be cleared,
    and its format has no attribute [free]. *)
Lemma disk_free_space_total d :
  (partitioned d = true -> fmt_free (format d) <> None) ->
  disk_free_space self mode d <> None.
Proof.
  unfold disk_free_space. intros H.
  destruct (should_clear self d _); [discriminate |].
  destruct (partitioned d).
  - destruct (fmt_free (format d)); [discriminate |].
    exfalso. now apply H.
  - destruct (fmt_free (format d)); [discriminate |].
    destruct (fmt_type (format d)); discriminate.
Qed.

Lemma partition_free_kept d parts :
  (forall p, In p parts ->
             should_clear self p (free_space_kwargs mode d) = false) ->
  forall disk_free fs_free,
  List.fold_left (partition_free_step self mode d) parts
                 (disk_free, fs_free)
  = (disk_free, fs_free + List.fold_right Z.add 0 (List.map shrinkable parts)).
Proof.
  induction parts as [| p parts IH]; intros Hkeep disk_free fs_free; simpl.
  - f_equal. lia.
  - rewrite (Hkeep p) by now left. unfold shrinkable at 1.
    destruct (fmt_free (format p)) as [f |];
      rewrite IH by (intros q Hq; apply Hkeep; now right);
      f_equal; lia.
Qed.

End FreeSpace.

(** C7.  When [should_clear] accepts a disk of the list, in the mode and
    with the disk list [get_free_space] passes, the entry
    [get_free_space] returns under the name of the disk is
    [(disk.size, 0)]; the call returns when the format of every
    partitioned disk of the list has the attribute [free]. *)
Theorem get_free_space_cleared_disk self disks_ mode_ d :
  let ds := kwargs_get disks_ (storage_disks self) in
  let mode := kwargs_get mode_ (clear_part_type (config self)) in
  In d ds ->
  (forall d', In d' ds -> name d' = name d -> d' = d) ->
  should_clear self d (free_space_kwargs mode d) = true ->
  (forall free, get_free_space self disks_ mode_ = Some free ->
                free !! name d = Some (size d, 0))
  /\ ((forall d', In d' ds -> partitioned d' = true ->
                  fmt_free (format d') <> None) ->
      exists free, get_free_space self disks_ mode_ = Some free
                   /\ free !! name d = Some (size d, 0)).
Proof.
  intros ds mode Hin Huniq Hclear.
  assert (Hentry : forall free, get_free_space self disks_ mode_ = Some free ->
                                free !! name d = Some (size d, 0)).
  { intros free Hrun. unfold get_free_space in Hrun. cbv zeta in Hrun.
    rewrite (get_free_space_loop_lookup _ _ _ _ _ _ Hrun Hin Huniq).
    unfold disk_free_space. fold mode. rewrite Hclear. reflexivity. }
  split; [exact Hentry |].
  intros Hlabels.
  destruct (get_free_space_loop_total self mode ds) with (free := (∅ : gmap string (Z * Z)))
    as [free Hrun].
  { intros d' Hd'. apply disk_free_space_total. now apply Hlabels. }
  exists free. split; [exact Hrun | now apply Hentry].
Qed.

(** Disk [sdb], empty, with [initialize_disks] set: all of it is free. *)
Lemma get_free_space_cleared_disk_witness :
  exists free,
    get_free_space
      (Fixtures.storage
         (Fixtures.settings CLEAR_PARTITIONS_DEFAULT [] [] true)
         [Fixtures.sdb])
      None None = Some free
    /\ free !! "sdb"%string = Some (500, 0).
Proof.
  apply (get_free_space_cleared_disk
           (Fixtures.storage
              (Fixtures.settings CLEAR_PARTITIONS_DEFAULT [] [] true)
              [Fixtures.sdb])
           None None Fixtures.sdb).
  - simpl. left. reflexivity.
  - simpl. intros d' [<- | []] _. reflexivity.
  - reflexivity.
  - simpl. intros d' [<- | []]. discriminate.
Defined.

(** C8.  For a partitioned disk of the list that [should_clear] rejects
    and none of whose partitions it accepts, [get_free_space] returns
    under the name of the disk the free space the disk label reports as
    [disk_free], and as [fs_free] the sum of [format.free] over the
    partitions of the disk whose format has this attribute. *)
Theorem get_free_space_additive self disks_ mode_ d label_free :
  let ds := kwargs_get disks_ (storage_disks self) in
  let mode := kwargs_get mode_ (clear_part_type (config self)) in
  let parts := List.filter (on_disk d) (storage_partitions self) in
  In d ds ->
  (forall d', In d' ds -> name d' = name d -> d' = d) ->
  partitioned d = true ->
  fmt_free (format d) = Some label_free ->
  should_clear self d (free_space_kwargs mode d) = false ->
  (forall p, In p parts ->
             should_clear self p (free_space_kwargs mode d) = false) ->
  (forall free, get_free_space self disks_ mode_ = Some free ->
                free !! name d
                = Some (label_free,
                        List.fold_right Z.add 0 (List.map shrinkable parts)))
  /\ ((forall d', In d' ds -> partitioned d' = true ->
                  fmt_free (format d') <> None) ->
      exists free, get_free_space self disks_ mode_ = Some free
                   /\ free !! name d
                      = Some (label_free,
                              List.fold_right Z.add 0
                                (List.map shrinkable parts))).
Proof.
  intros ds mode parts Hin Huniq Hpart Hlabel Hdisk Hparts.
  assert (Hentry :
            forall free, get_free_space self disks_ mode_ = Some free ->
                         free !! name d
                         = Some (label_free,
                                 List.fold_right Z.add 0
                                   (List.map shrinkable parts))).
  { intros free Hrun. unfold get_free_space in Hrun. cbv zeta in Hrun.
    rewrite (get_free_space_loop_lookup _ _ _ _ _ _ Hrun Hin Huniq).
    unfold disk_free_space. fold mode. rewrite Hdisk, Hpart, Hlabel.
    fold parts. rewrite (partition_free_kept self mode d parts Hparts).
    reflexivity. }
  split; [exact Hentry |].
  intros Hlabels.
  destruct (get_free_space_loop_total self mode ds) with (free := (∅ : gmap string (Z * Z)))
    as [free Hrun].
  { intros d' Hd'. apply disk_free_space_total. now apply Hlabels. }
  exists free. split; [exact Hrun | now apply Hentry].
Qed.

(** Disk [sda] under mode NONE: nothing is cleared, the label reports no
    free space, and only the file system of [sda1] can shrink. *)
Lemma get_free_space_additive_witness :
  exists free,
    get_free_space
      (Fixtures.storage
         (Fixtures.settings CLEAR_PARTITIONS_NONE [] [] false)
         Fixtures.sda_tree)
      None None = Some free
    /\ free !! "sda"%string = Some (0, 100).
Proof.
  apply (get_free_space_additive
           (Fixtures.storage
              (Fixtures.settings CLEAR_PARTITIONS_NONE [] [] false)
              Fixtures.sda_tree)
           None None Fixtures.sda 0).
  - simpl. left. reflexivity.
  - simpl. intros d' [<- | []] _. reflexivity.
  - reflexivity.
  - reflexivity.
  - reflexivity.
  - simpl. intros p [<- | [<- | []]]; reflexivity.
  - simpl. intros d' [<- | []]. discriminate.
Defined.

Lemma should_clear_given_disks self only_disks device kwargs :
  kw_clear_part_disks kwargs <> None ->
  should_clear (set_clear_part_disks self only_disks) device kwargs
  = should_clear self device kwargs.
Proof.
  intros H. unfold should_clear, empty_device. cbv zeta. simpl.
  destruct (kw_clear_part_disks kwargs); [reflexivity | congruence].
Qed.

Lemma fold_left_pointwise {A B : Type} (f g : A -> B -> A) (l : list B) :
  (forall a b, f a b = g a b) ->
  forall a, List.fold_left f l a = List.fold_left g l a.
Proof.
  intros Hfg. induction l as [| b l IH]; intros a; simpl;
    [reflexivity | rewrite Hfg; apply IH].
Qed.

Lemma disk_free_space_given_disks self only_disks mode d :
  disk_free_space (set_clear_part_disks self only_disks) mode d
  = disk_free_space self mode d.
Proof.
  unfold disk_free_space.
  rewrite should_clear_given_disks by discriminate.
  destruct (should_clear self d _); [reflexivity |].
  destruct (partitioned d); [| reflexivity].
  destruct (fmt_free (format d)); [| reflexivity].
  apply f_equal. apply fold_left_pointwise. intros acc p.
  unfold partition_free_step.
  rewrite should_clear_given_disks by discriminate. reflexivity.
Qed.

(** C10.  [get_free_space] does not depend on [clear_part_disks]: two
    storage objects that differ in this list only give the same
    report, for every list of disks and every mode. *)
Theorem get_free_space_ignores_clear_part_disks self only_disks disks_ mode_ :
  get_free_space (set_clear_part_disks self only_disks) disks_ mode_
  = get_free_space self disks_ mode_.
Proof.
  unfold get_free_space, get_free_space_loop. cbv zeta.
  apply fold_left_pointwise. intros acc d.
  destruct acc; [| reflexivity].
  rewrite disk_free_space_given_disks. reflexivity.
Qed.

(** ** Protected devices *)

Lemma protect_In n tree a :
  In a (protect n tree) ->
  exists a0, In a0 tree /\ name a = name a0 /\ parents a = parents a0
             /\ (protected a0 = true -> protected a = true)
             /\ (name a0 = n -> protected a = true).
Proof.
  unfold protect. intros H. apply List.in_map_iff in H as [a0 [Ha Hin]].
  exists a0. split; [exact Hin |].
  destruct (String.eqb (name a0) n) eqn:E; subst a; simpl.
  - repeat split; reflexivity.
  - apply String.eqb_neq in E. repeat split; [tauto | congruence].
Qed.

Lemma protect_all_In ps : forall tree a,
  In a (List.fold_left (fun tree parent => protect parent tree) ps tree) ->
  exists a0, In a0 tree /\ name a = name a0 /\ parents a = parents a0
             /\ (protected a0 = true -> protected a = true)
             /\ (In (name a0) ps -> protected a = true).
Proof.
  induction ps as [| p ps IH]; intros tree a H; simpl in H.
  - exists a. repeat split; [exact H | tauto | intros []].
  - apply IH in H as [a1 [H1 [Hn [Hp [Hkeep Hps]]]]].
    apply protect_In in H1 as [a0 [H0 [Hn0 [Hp0 [Hkeep0 Hhit]]]]].
    exists a0. repeat split; try congruence; try tauto.
    intros [Hp1 | Hin].
    + apply Hkeep. apply Hhit. now symmetry.
    + apply Hps. rewrite Hn0. exact Hin.
Qed.

Lemma get_device_by_name_Some tree n d :
  get_device_by_name tree n = Some d -> In d tree /\ name d = n.
Proof.
  unfold get_device_by_name. intros H. apply List.find_some in H as [Hin He].
  apply String.eqb_eq in He. now split.
Qed.

(** Marking a device leaves the names to protect and the live device as
    they are. *)
Lemma _mark_protected_device_names self device :
  protected_dev_names (_mark_protected_device self device)
  = protected_dev_names self
  /\ live_backing_device (_mark_protected_device self device)
     = live_backing_device self.
Proof.
  unfold _mark_protected_device.
  destruct (name_in _ _); [| now split].
  destruct (is_live_backing_device self device); now split.
Qed.

Lemma mark_by_name_fold_names names : forall self self',
  List.fold_left mark_by_name names (Some self) = Some self' ->
  protected_dev_names self' = protected_dev_names self
  /\ live_backing_device self' = live_backing_device self.
Proof.
  induction names as [| n names IH]; intros self self' H; simpl in H.
  - injection H as <-. now split.
  - destruct (get_device_by_name (devicetree self) n) as [dev |].
    + apply IH in H as [H1 H2].
      destruct (_mark_protected_device_names self dev) as [E1 E2].
      split; congruence.
    + assert (E : List.fold_left mark_by_name names None = None)
        by (clear; induction names; simpl; auto).
      rewrite E in H. discriminate.
Qed.

Lemma get_device_by_name_protect n tree m d0 :
  get_device_by_name tree m = Some d0 ->
  exists d, get_device_by_name (protect n tree) m = Some d
            /\ name d = name d0 /\ parents d = parents d0
            /\ (protected d0 = true -> protected d = true)
            /\ (name d0 = n -> protected d = true).
Proof.
  unfold get_device_by_name, protect.
  induction tree as [| x tree IH]; simpl; [discriminate |].
  destruct (String.eqb (name x) n) eqn:En; simpl.
  - destruct (String.eqb (name x) m) eqn:Em.
    + intros [= <-]. eexists. split; [reflexivity |].
      simpl. repeat split; reflexivity.
    + exact IH.
  - destruct (String.eqb (name x) m) eqn:Em.
    + intros [= <-]. exists x. apply String.eqb_neq in En.
      repeat split; [tauto | congruence].
    + exact IH.
Qed.

Lemma get_device_by_name_protect_all ps : forall tree m d0,
  get_device_by_name tree m = Some d0 ->
  exists d,
    get_device_by_name
      (List.fold_left (fun tree parent => protect parent tree) ps tree) m
    = Some d
    /\ name d = name d0 /\ parents d = parents d0
    /\ (protected d0 = true -> protected d = true).
Proof.
  induction ps as [| p ps IH]; intros tree m d0 H; simpl.
  - exists d0. repeat split; [exact H | tauto].
  - apply (get_device_by_name_protect p) in H
      as [d1 [H1 [Hn1 [Hp1 [Hk1 _]]]]].
    apply IH in H1 as [d [H [Hn [Hp Hk]]]].
    exists d. repeat split; [exact H | congruence | congruence | tauto].
Qed.

(** C9, as the specification states it, fails: with the live image on
    the array [md127] over [sda1] and [sdb1], the array is marked
    protected, and its ancestors [sda] and [sdb] are not. *)
Lemma live_ancestors_counterexample :
  exists self' d,
    reset_protected_devices Fixtures.live_env Fixtures.live_storage
    = Some self'
    /\ live_backing_device self' = Some "md127"%string
    /\ get_device_by_name (devicetree self') "md127" = Some d
    /\ protected d = true
    /\ ~ ancestors_protected (devicetree self') d.
Proof.
  eexists. eexists.
  split; [vm_compute; reflexivity |].
  split; [reflexivity |].
  split; [vm_compute; reflexivity |].
  split; [reflexivity |].
  intros H.
  specialize (H Fixtures.sda). simpl in H.
  discriminate H; auto.
Qed.

(** C9, amended.  When [reset] finds the device backing the live medium
    and ends normally, the device of that name is marked protected and
    so is each of its parents: the devices the device names directly,
    not the ancestors above them. *)
Theorem live_backing_device_parents_protected env self self' live :
  reset_protected_devices env self = Some self' ->
  live_device_name env = Some live ->
  live_backing_device self' = Some live
  /\ exists d, get_device_by_name (devicetree self') live = Some d
               /\ protected d = true
               /\ parents_protected (devicetree self') d.
Proof.
  unfold reset_protected_devices, _find_live_backing_device. cbv zeta.
  intros Hrun Hlive. rewrite Hlive in Hrun. simpl in Hrun.
  rewrite List.fold_left_app in Hrun. simpl in Hrun.
  destruct (List.fold_left mark_by_name _ _) as [sk |] eqn:Hfold;
    [| discriminate].
  apply mark_by_name_fold_names in Hfold as [Hnames Hbacking].
  simpl in Hnames, Hbacking. simpl in Hrun.
  destruct (get_device_by_name (devicetree sk) live) as [dev |] eqn:Hdev;
    [| discriminate].
  injection Hrun as <-.
  destruct (get_device_by_name_Some _ _ _ Hdev) as [Hin Hname].
  unfold _mark_protected_device, is_live_backing_device.
  rewrite Hnames, Hbacking, Hname, String.eqb_refl.
  replace (name_in live _) with true
    by (symmetry; apply name_in_In, List.in_or_app; right; now left).
  simpl. split; [exact Hbacking |].
  destruct (get_device_by_name_protect live _ _ _ Hdev)
    as [d1 [H1 [Hn1 [Hp1 [_ Hhit1]]]]].
  destruct (get_device_by_name_protect_all (parents dev) _ _ _ H1)
    as [d [Hd [Hn [Hp Hk]]]].
  exists d. split; [exact Hd |]. split.
  - apply Hk. now apply Hhit1.
  - intros a Ha Hpar.
    apply protect_all_In in Ha as [a1 [_ [Hna [_ [_ Hps]]]]].
    apply Hps. rewrite <- Hna. congruence.
Qed.

(** The live image on [md127]: the array and the partitions [sda1] and
    [sdb1] under it are marked. *)
Lemma live_backing_device_parents_protected_witness :
  exists self',
    reset_protected_devices Fixtures.live_env Fixtures.live_storage
    = Some self'
    /\ live_backing_device self' = Some "md127"%string
    /\ exists d, get_device_by_name (devicetree self') "md127" = Some d
                 /\ protected d = true
                 /\ parents_protected (devicetree self') d.
Proof.
  eexists. split; [vm_compute; reflexivity |].
  apply (live_backing_device_parents_protected
           Fixtures.live_env Fixtures.live_storage _ "md127"%string).
  - vm_compute. reflexivity.
  - vm_compute. reflexivity.
Defined.

(** ** Removing devices *)










(** ** Trees before and after a removal *)




Lemma same_device_not_disk x x' :
  same_device x x' -> is_disk x' = false -> x' = x.
Proof.
  intros [-> | [Hx ->]] H; [reflexivity |]. simpl in H. congruence.
Qed.






(** A device that is not a whole disk is in the later tree as it was in
    the earlier one. *)
Lemma shrinks_not_disk t t' x :
  shrinks t t' -> In x t' -> is_disk x = false -> In x t.
Proof.
  intros Hs Hx Hd. destruct (Hs x Hx) as [x0 [H0 Hsame]].
  now rewrite (same_device_not_disk _ _ Hsame Hd).
Qed.















(** ** Writing a fresh disklabel *)






(** ** The pass over the partitions *)

Lemma insert_descending_In p l x :
  In x (insert_descending p l) <-> x = p \/ In x l.
Proof.
  induction l as [| q l IH]; simpl.
  - split; intros [H | H]; auto; try destruct H.
  - destruct (partition_number q <? partition_number p); simpl.
    + split; intros [H | H]; auto.
    + rewrite IH. split; intros H; tauto.
Qed.


Lemma set_devicetree_same s : set_devicetree s (devicetree s) = s.
Proof. destruct s. reflexivity. Qed.

Section PartitionPass.

Variable s0 : InstallerStorage.
Hypothesis wf0 : wf_tree (devicetree s0).





End PartitionPass.

(** ** The removal of the empty extended partitions *)



Section ExtendedPass.

Variable t0 : list Device.
Hypothesis wf0 : wf_tree t0.
Hypothesis stay_nonempty :
  forall p, In p t0 -> is_extended p = true -> holds_protected t0 p = true ->
            exists c, In c t0 /\ In (name p) (parents c)
                      /\ is_logical c = true.



End ExtendedPass.

(** ** The pass over the disks *)






(** ** One run of [clear_partitions], and a second one *)

Lemma clear_partition_pass_nothing L s :
  (forall p, In p L -> should_clear s p no_kwargs = false) ->
  List.fold_left clear_partition_step L s = s.
Proof.
  induction L as [| p L IH]; intros H; simpl; [reflexivity |].
  unfold clear_partition_step at 2. rewrite (H p) by now left.
  apply IH. intros q Hq. apply H. now right.
Qed.



Section ClearPartitions.

Variable self : InstallerStorage.
Hypothesis wf0 : wf_tree (devicetree self).
Hypothesis stay_nonempty : extended_stay_nonempty self.
Hypothesis existing_only : clear_non_existent (config self) = false.

Let s1 : InstallerStorage :=
  List.fold_left clear_partition_step
    (sorted_descending (storage_partitions self)) self.
Let s2 : InstallerStorage :=
  set_devicetree s1 (remove_empty_extended_partitions (devicetree s1)).
Let s3 : InstallerStorage := fst (clear_partitions self).









End ClearPartitions.



(** Well-formedness of a tree given by its devices. *)
Ltac in_cases H := simpl in H; decompose [or] H; subst; clear H.

Ltac solve_wf_tree :=
  split;
  [ simpl; repeat constructor; simpl; intuition discriminate
  | intros x parent Hx; in_cases Hx; simpl; tauto
  | intros x y a Hx Hy; in_cases Hx; in_cases Hy; simpl;
    intuition discriminate
  | intros x Hx; in_cases Hx; simpl; intuition discriminate ].

Ltac solve_nothing_protected :=
  let p := fresh "p" in
  let Hp := fresh "Hp" in
  intros p Hp; in_cases Hp; simpl; intuition discriminate.

(** The tree of the logical volume is well formed and has no extended
    partition. *)
Example lvm_tree_well_formed :
  wf_tree Fixtures.lvm_tree
  /\ extended_hold_nothing_protected Fixtures.lvm_tree.
Proof. split; [solve_wf_tree | solve_nothing_protected]. Qed.

(** Under mode LIST with only the logical volume listed, a run removes
    nothing and logs nothing. *)
Example clear_partitions_listed_volume :
  clear_partitions
    (Fixtures.storage
       (Fixtures.settings CLEAR_PARTITIONS_LIST [] ["vg-root"%string] false)
       Fixtures.lvm_tree)
  = (Fixtures.storage
       (Fixtures.settings CLEAR_PARTITIONS_LIST [] ["vg-root"%string] false)
       Fixtures.lvm_tree, []).
Proof. reflexivity. Qed.


(** A tree in which no extended partition holds anything protected is
    one in which protection keeps every container from getting empty:
    there is no container to keep. *)
Lemma nothing_protected_stay_nonempty self :
  extended_hold_nothing_protected (devicetree self) ->
  extended_stay_nonempty self.
Proof.
  intros H p Hp Hext Hhold. rewrite (H p Hp Hext) in Hhold. discriminate.
Qed.

(** Where protection does not keep a container from getting empty, a
    run removes a protected device: the extended partition [sdh4],
    protected and with no logical partition in it, is gone after the
    run. *)
Example clear_partitions_protected_container :
  let self :=
    Fixtures.storage (Fixtures.settings CLEAR_PARTITIONS_NONE [] [] false)
                     [Samples.sdh; Samples.extended_partition true] in
  wf_tree (devicetree self)
  /\ ~ extended_stay_nonempty self
  /\ List.map name (devicetree (fst (clear_partitions self)))
     = ["sdh"%string].
Proof.
  intros self. split; [solve_wf_tree |]. split; [| reflexivity].
  intros H.
  destruct (H (Samples.extended_partition true))
    as [c [Hc [Hpar _]]]; [simpl; tauto | reflexivity | reflexivity |].
  in_cases Hc; simpl in Hpar; intuition discriminate.
Qed.



(** With [clear_non_existent] set the disks are another matter: under
    mode ALL a disk with a file system on it is cleared, gets a fresh
    label, stays in the tree, and [should_clear] accepts it again. *)
Example clear_partitions_planned_disk :
  let self :=
    Fixtures.storage (Fixtures.settings_non_existent CLEAR_PARTITIONS_ALL)
      [Fixtures.whole_disk "sdb" false (Fixtures.ext4 10) 500] in
  let self' := fst (clear_partitions self) in
  exists d, In d (devicetree self') /\ is_disk d = true
            /\ fmt_exists (format d) = false
            /\ should_clear self' d no_kwargs = true.
Proof.
  intros self self'. eexists. split; [left; reflexivity |].
  repeat split; reflexivity.
Qed.

(** * Further properties of the code *)

(** ** [should_clear], check by check *)

(** [should_clear] accepts a device when none of its checks rejects
    it. *)
Lemma should_clear_checks self device kwargs :
  should_clear self device kwargs =
  negb (disk_scope_rejects (effective_clear_part_disks self kwargs) device)
  && negb (existence_rejects self device)
  && negb (none_default_rejects self
             (effective_clear_part_type self kwargs) device)
  && negb (kind_rejects self (effective_clear_part_type self kwargs) device)
  && negb (holds_protected (devicetree self) device)
  && negb (list_rejects (effective_clear_part_type self kwargs)
             (effective_clear_part_devices self kwargs) device).
Proof.
  unfold should_clear, existence_rejects, none_default_rejects, kind_rejects,
    partition_rejects, disk_rejects, list_rejects, holds_protected,
    effective_clear_part_disks, effective_clear_part_type,
    effective_clear_part_devices.
  cbv zeta.
  destruct (disk_scope_rejects _ device); [reflexivity |].
  destruct (negb (clear_non_existent (config self)) && _); [reflexivity |].
  destruct (is_none_or_default _); simpl.
  - destruct (negb (initialize_disks (config self)) || negb (is_disk device));
      simpl; [reflexivity |].
    destruct (negb (empty_device self device)); simpl; [reflexivity |].
    destruct (if is_partition device then _ else _); simpl; [reflexivity |].
    destruct (protected device || _); simpl; [reflexivity |].
    destruct (ClearPartType_eqb _ _ && _); reflexivity.
  - destruct (if is_partition device then _ else _); simpl; [reflexivity |].
    destruct (protected device || _); simpl; [reflexivity |].
    destruct (ClearPartType_eqb _ _ && _); reflexivity.
Qed.

Lemma should_clear_true_checks self device kwargs :
  should_clear self device kwargs = true <->
  disk_scope_rejects (effective_clear_part_disks self kwargs) device = false
  /\ existence_rejects self device = false
  /\ none_default_rejects self (effective_clear_part_type self kwargs) device
     = false
  /\ kind_rejects self (effective_clear_part_type self kwargs) device = false
  /\ holds_protected (devicetree self) device = false
  /\ list_rejects (effective_clear_part_type self kwargs)
       (effective_clear_part_devices self kwargs) device = false.
Proof.
  rewrite should_clear_checks, !andb_true_iff, !negb_true_iff. tauto.
Qed.

Lemma reserved_partition_rejected self p kwargs :
  is_partition p = true ->
  is_magic p = true \/ (is_primary p = false /\ is_logical p = false) ->
  should_clear self p kwargs = false.
Proof.
  intros Hpart Hkind. rewrite should_clear_checks.
  assert (E : kind_rejects self (effective_clear_part_type self kwargs) p
              = true).
  { unfold kind_rejects, partition_rejects. rewrite Hpart.
    destruct Hkind as [-> | [-> ->]]; simpl;
      [reflexivity | now rewrite orb_true_r]. }
  rewrite E. simpl. now rewrite !andb_false_r.
Qed.

(** X1.  A partition that is magic, or that is neither primary nor
    logical, is never to be cleared, whatever the mode, the configuration
    and the keyword arguments. *)
Theorem should_clear_never_reserved_partition self p kwargs :
  is_partition p = true ->
  is_magic p = true \/ (is_primary p = false /\ is_logical p = false) ->
  should_clear self p kwargs = false.
Proof. intros Hpart Hkind. now apply reserved_partition_rejected. Qed.

Lemma should_clear_never_reserved_partition_witness :
  should_clear
    (Fixtures.storage (Fixtures.settings CLEAR_PARTITIONS_ALL [] [] true)
                      [Samples.sde; Samples.magic_partition])
    Samples.magic_partition no_kwargs = false.
Proof.
  apply should_clear_never_reserved_partition; [reflexivity |].
  left. reflexivity.
Defined.

(** X2.  A whole disk with a hidden format is never to be cleared. *)
Theorem should_clear_never_hidden_disk self d kwargs :
  is_partition d = false -> is_disk d = true ->
  fmt_hidden (format d) = true ->
  should_clear self d kwargs = false.
Proof.
  intros Hpart Hdisk Hhidden. rewrite should_clear_checks.
  assert (E : kind_rejects self (effective_clear_part_type self kwargs) d
              = true).
  { unfold kind_rejects, disk_rejects. rewrite Hpart, Hdisk, Hhidden.
    now rewrite orb_true_r. }
  rewrite E. simpl. now rewrite !andb_false_r.
Qed.

Lemma should_clear_never_hidden_disk_witness :
  should_clear
    (Fixtures.storage (Fixtures.settings CLEAR_PARTITIONS_ALL [] [] true)
                      [Samples.multipath_member])
    Samples.multipath_member no_kwargs = false.
Proof. apply should_clear_never_hidden_disk; reflexivity. Defined.

(** X3.  Under mode LIST [should_clear] accepts only devices named in
    [clear_part_devices]; an existing, unprotected primary or logical
    partition in scope that is not magic is accepted exactly when it is
    named there. *)
Theorem should_clear_list_mode self d kwargs :
  effective_clear_part_type self kwargs = CLEAR_PARTITIONS_LIST ->
  (should_clear self d kwargs = true ->
   In (name d) (effective_clear_part_devices self kwargs))
  /\ (is_partition d = true -> is_disk d = false -> dev_exists d = true ->
      is_magic d = false ->
      is_primary d = true \/ is_logical d = true ->
      disk_scope_rejects (effective_clear_part_disks self kwargs) d = false ->
      holds_protected (devicetree self) d = false ->
      (should_clear self d kwargs = true <->
       In (name d) (effective_clear_part_devices self kwargs))).
Proof.
  intros Hmode. split.
  - intros H. apply should_clear_true_checks in H as [_ [_ [_ [_ [_ H]]]]].
    unfold list_rejects in H. rewrite Hmode in H. simpl in H.
    apply negb_false_iff in H. now apply name_in_In.
  - intros Hpart Hdisk Hexists Hmagic Hkind Hscope Hprot.
    rewrite should_clear_true_checks. rewrite Hmode.
    unfold existence_rejects, none_default_rejects, kind_rejects,
      partition_rejects, list_rejects.
    rewrite Hscope, Hprot, Hpart, Hdisk, Hexists, Hmagic. simpl.
    rewrite andb_false_r, negb_false_iff, name_in_In.
    assert (E : negb (is_primary d) && negb (is_logical d) = false).
    { destruct Hkind as [-> | ->]; simpl;
        [reflexivity | apply andb_false_r]. }
    rewrite E. simpl. tauto.
Qed.

(** Disk [sdd] under mode LIST with [sdd2] listed: only [sdd2] is to be
    cleared. *)
Lemma should_clear_list_mode_witness :
  let self :=
    Fixtures.storage
      (Fixtures.settings CLEAR_PARTITIONS_LIST [] ["sdd2"%string] false)
      Samples.sdd_tree in
  should_clear self Samples.sdd2 no_kwargs = true
  /\ should_clear self Samples.sdd1 no_kwargs = false
  /\ should_clear self Samples.sdd no_kwargs = false.
Proof.
  intros self. split; [| split; reflexivity].
  apply (should_clear_list_mode self Samples.sdd2 no_kwargs eq_refl);
    try reflexivity.
  - left. reflexivity.
  - simpl. left. reflexivity.
Defined.

(** X4.  When all three keyword arguments are given, [should_clear]
    reads of the configuration only [initialize_disks] and
    [clear_non_existent]: storage objects with the same device tree and
    the same two flags give the same answer. *)
Theorem should_clear_keyword_arguments_win self1 self2 d mode only_disks
  devices :
  devicetree self1 = devicetree self2 ->
  initialize_disks (config self1) = initialize_disks (config self2) ->
  clear_non_existent (config self1) = clear_non_existent (config self2) ->
  should_clear self1 d (Samples.all_given mode only_disks devices)
  = should_clear self2 d (Samples.all_given mode only_disks devices).
Proof.
  intros Htree Hinit Hcne. unfold should_clear, empty_device. cbv zeta.
  simpl. now rewrite Htree, Hinit, Hcne.
Qed.

Lemma should_clear_keyword_arguments_win_witness :
  should_clear
    (Fixtures.storage (Fixtures.settings CLEAR_PARTITIONS_NONE [] [] false)
                      Samples.sdd_tree)
    Samples.sdd1 (Samples.all_given CLEAR_PARTITIONS_ALL [] [])
  = should_clear
      (Fixtures.storage
         (Fixtures.settings CLEAR_PARTITIONS_LIST ["sdx"%string]
                            ["sdd2"%string] false)
         Samples.sdd_tree)
      Samples.sdd1 (Samples.all_given CLEAR_PARTITIONS_ALL [] []).
Proof. apply should_clear_keyword_arguments_win; reflexivity. Defined.

(** X5.  Under a mode other than ALL a partitioned whole disk and one
    of its partitions are never both to be cleared: the disk is accepted
    only when all its children are magic partitions. *)
Theorem should_clear_disk_or_partition self d p kwargs :
  effective_clear_part_type self kwargs <> CLEAR_PARTITIONS_ALL ->
  is_partition d = false -> is_disk d = true -> partitioned d = true ->
  In p (devicetree self) -> In (name d) (parents p) ->
  is_partition p = true ->
  should_clear self d kwargs = true ->
  should_clear self p kwargs = false.
Proof.
  intros Hmode Hpart Hdisk Hparted Hp Hchild Hppart Hd.
  apply reserved_partition_rejected; [exact Hppart | left].
  apply should_clear_true_checks in Hd as [_ [_ [_ [Hkind _]]]].
  unfold kind_rejects, disk_rejects in Hkind.
  rewrite Hpart, Hdisk, Hparted in Hkind.
  apply orb_false_iff in Hkind as [Hkind _].
  apply orb_false_iff in Hkind as [Hkind _].
  assert (Hnot : ClearPartType_eqb (effective_clear_part_type self kwargs)
                   CLEAR_PARTITIONS_ALL = false).
  { destruct (ClearPartType_eqb _ _) eqn:E; [| reflexivity].
    apply ClearPartType_eqb_eq in E. contradiction. }
  rewrite Hnot in Hkind. simpl in Hkind. apply negb_false_iff in Hkind.
  unfold empty_device in Hkind. rewrite Hparted in Hkind.
  rewrite List.forallb_forall in Hkind. apply Hkind.
  apply List.filter_In. split; [exact Hp | now apply name_in_In].
Qed.

(** Disk [sde] with its magic partition only, under mode LINUX with
    [initialize_disks]: the disk is to be cleared, the partition is
    not. *)
Lemma should_clear_disk_or_partition_witness :
  let self :=
    Fixtures.storage (Fixtures.settings CLEAR_PARTITIONS_LINUX [] [] true)
                     [Samples.sde; Samples.magic_partition] in
  should_clear self Samples.sde no_kwargs = true
  /\ should_clear self Samples.magic_partition no_kwargs = false.
Proof.
  intros self. split; [reflexivity |].
  apply (should_clear_disk_or_partition self Samples.sde);
    try reflexivity.
  - discriminate.
  - simpl. right. left. reflexivity.
  - simpl. left. reflexivity.
Defined.

(** X6.  Under mode ALL a whole disk is to be cleared exactly when it is
    in scope, its format exists (or [clear_non_existent] is set) and is
    not hidden, and neither the disk nor a dependent is protected:
    whether it is partitioned, empty or formatted plays no part. *)
Theorem should_clear_all_whole_disk self d kwargs :
  effective_clear_part_type self kwargs = CLEAR_PARTITIONS_ALL ->
  is_partition d = false -> is_disk d = true ->
  (should_clear self d kwargs = true <->
   disk_scope_rejects (effective_clear_part_disks self kwargs) d = false
   /\ (clear_non_existent (config self) = true
       \/ fmt_exists (format d) = true)
   /\ fmt_hidden (format d) = false
   /\ holds_protected (devicetree self) d = false).
Proof.
  intros Hmode Hpart Hdisk. rewrite should_clear_true_checks, Hmode.
  unfold existence_rejects, none_default_rejects, kind_rejects, disk_rejects,
    list_rejects.
  rewrite Hpart, Hdisk. simpl. rewrite !andb_false_r, !orb_false_r. simpl.
  destruct (clear_non_existent (config self)), (fmt_exists (format d));
    simpl; intuition discriminate.
Qed.

Lemma should_clear_all_whole_disk_witness :
  should_clear
    (Fixtures.storage (Fixtures.settings CLEAR_PARTITIONS_ALL [] [] false)
                      Samples.sdd_tree)
    Samples.sdd no_kwargs = true.
Proof.
  apply (should_clear_all_whole_disk
           (Fixtures.storage
              (Fixtures.settings CLEAR_PARTITIONS_ALL [] [] false)
              Samples.sdd_tree) Samples.sdd no_kwargs);
    try reflexivity.
  repeat split; try reflexivity. right. reflexivity.
Defined.

(** X7.  With the configuration [StorageDiscoveryConfig.__init__] sets
    up, and no keyword arguments, [should_clear] accepts no device. *)
Theorem should_clear_initial_config self d :
  config self = StorageDiscoveryConfig_init ->
  should_clear self d no_kwargs = false.
Proof.
  intros Hcfg. rewrite should_clear_checks.
  unfold none_default_rejects, effective_clear_part_type. rewrite Hcfg.
  simpl. now rewrite !andb_false_r.
Qed.

Lemma should_clear_initial_config_witness :
  should_clear (Fixtures.storage StorageDiscoveryConfig_init [Fixtures.sdb])
               Fixtures.sdb no_kwargs = false.
Proof. apply should_clear_initial_config. reflexivity. Defined.

(** X8.  Unless [clear_non_existent] is set, a whole disk whose format
    does not exist yet and any other device that does not exist yet are
    never to be cleared. *)
Theorem should_clear_existing_only self d kwargs :
  clear_non_existent (config self) = false ->
  (is_disk d = true /\ fmt_exists (format d) = false)
  \/ (is_disk d = false /\ dev_exists d = false) ->
  should_clear self d kwargs = false.
Proof.
  intros Hcne Hnew. rewrite should_clear_checks.
  assert (E : existence_rejects self d = true).
  { unfold existence_rejects. rewrite Hcne.
    destruct Hnew as [[-> ->] | [-> ->]]; reflexivity. }
  rewrite E. simpl. now rewrite !andb_false_r.
Qed.

Lemma should_clear_existing_only_witness :
  should_clear
    (Fixtures.storage (Fixtures.settings CLEAR_PARTITIONS_ALL [] [] false)
                      (Samples.sdd_tree ++ [Samples.planned_partition]))
    Samples.planned_partition no_kwargs = false.
Proof.
  apply should_clear_existing_only; [reflexivity |].
  right. split; reflexivity.
Defined.

(** ** [get_free_space], entry by entry *)

Section FreeSpaceEntries.

Variable self : InstallerStorage.
Variable mode : ClearPartType.

Lemma get_free_space_loop_keys ds :
  forall (free result : gmap string (Z * Z)) (n : string),
  get_free_space_loop self mode ds free = Some result ->
  (is_Some (result !! n) <-> In n (List.map name ds) \/ is_Some (free !! n)).
Proof.
  induction ds as [| d ds IH]; intros free result n Hrun.
  - injection Hrun as <-. simpl. tauto.
  - rewrite get_free_space_loop_cons in Hrun.
    destruct (disk_free_space self mode d) as [entry |]; [| discriminate].
    rewrite (IH _ _ n Hrun). simpl.
    destruct (String.string_dec (name d) n) as [-> | Hne].
    + rewrite lookup_insert_eq. split; intros _; [left; now left | right; eauto].
    + rewrite lookup_insert_ne by exact Hne. tauto.
Qed.

(** Every entry of the report is the entry of a disk of the list. *)
Lemma get_free_space_loop_entry ds :
  forall (free result : gmap string (Z * Z)) (n : string) (e : Z * Z),
  get_free_space_loop self mode ds free = Some result ->
  result !! n = Some e ->
  (exists d, In d ds /\ name d = n /\ disk_free_space self mode d = Some e)
  \/ free !! n = Some e.
Proof.
  induction ds as [| d ds IH]; intros free result n e Hrun He.
  - injection Hrun as <-. now right.
  - rewrite get_free_space_loop_cons in Hrun.
    destruct (disk_free_space self mode d) as [entry |] eqn:E;
      [| discriminate].
    destruct (IH _ _ n e Hrun He) as [[d' [Hd' [Hn Hd]]] | Hfree].
    + left. exists d'. split; [now right | now split].
    + destruct (String.string_dec (name d) n) as [Hn | Hne].
      * rewrite <- Hn, lookup_insert_eq in Hfree. injection Hfree as <-.
        left. exists d. split; [now left | now split].
      * rewrite lookup_insert_ne in Hfree by exact Hne. now right.
Qed.

(** The loop over the partitions of a disk: the partitions to clear add
    their size to [disk_free], the others what their file system can
    give up to [fs_free]. *)
Lemma partition_free_split d parts :
  forall disk_free fs_free,
  List.fold_left (partition_free_step self mode d) parts
                 (disk_free, fs_free)
  = (disk_free
     + List.fold_right Z.add 0
         (List.map size
            (List.filter
               (fun p => should_clear self p (free_space_kwargs mode d))
               parts)),
     fs_free
     + List.fold_right Z.add 0
         (List.map shrinkable
            (List.filter
               (fun p => negb (should_clear self p
                                 (free_space_kwargs mode d)))
               parts))).
Proof.
  induction parts as [| p parts IH]; intros disk_free fs_free; simpl.
  - f_equal; lia.
  - destruct (should_clear self p (free_space_kwargs mode d)); simpl.
    + rewrite IH. f_equal; lia.
    + destruct (fmt_free (format p)) as [f |] eqn:E; rewrite IH.
      * assert (Hs : shrinkable p = f)
          by (unfold shrinkable; now rewrite E).
        rewrite Hs. f_equal; lia.
      * assert (Hs : shrinkable p = 0)
          by (unfold shrinkable; now rewrite E).
        rewrite Hs. f_equal; lia.
Qed.

Lemma sum_nonnegative (f : Device -> Z) l :
  (forall x, In x l -> 0 <= f x) ->
  0 <= List.fold_right Z.add 0 (List.map f l).
Proof.
  induction l as [| x l IH]; intros H; simpl; [lia |].
  assert (0 <= f x) by (apply H; now left).
  assert (0 <= List.fold_right Z.add 0 (List.map f l))
    by (apply IH; intros y Hy; apply H; now right).
  lia.
Qed.

Lemma disk_free_space_nonnegative d a b :
  sizes_nonnegative d ->
  (forall p, In p (storage_partitions self) -> sizes_nonnegative p) ->
  disk_free_space self mode d = Some (a, b) -> 0 <= a /\ 0 <= b.
Proof.
  intros [Hsize Hfree] Hparts. unfold disk_free_space.
  destruct (should_clear self d _); [intros [= <- <-]; lia |].
  destruct (partitioned d).
  - destruct (fmt_free (format d)) as [label_free |] eqn:El; [| discriminate].
    rewrite partition_free_split. intros [= <- <-].
    specialize (Hfree _ eq_refl). split.
    + assert (0 <= List.fold_right Z.add 0
                (List.map size
                   (List.filter
                      (fun p => should_clear self p (free_space_kwargs mode d))
                      (List.filter (on_disk d) (storage_partitions self))))).
      { apply sum_nonnegative. intros p Hp.
        apply List.filter_In in Hp as [Hp _].
        apply List.filter_In in Hp as [Hp _].
        exact (proj1 (Hparts p Hp)). }
      lia.
    + assert (0 <= List.fold_right Z.add 0
                (List.map shrinkable
                   (List.filter
                      (fun p => negb (should_clear self p
                                        (free_space_kwargs mode d)))
                      (List.filter (on_disk d) (storage_partitions self))))).
      { apply sum_nonnegative. intros p Hp.
        apply List.filter_In in Hp as [Hp _].
        apply List.filter_In in Hp as [Hp _].
        destruct (Hparts p Hp) as [_ Hf]. unfold shrinkable.
        destruct (fmt_free (format p)); [now apply Hf | lia]. }
      lia.
  - destruct (fmt_free (format d)) as [f |] eqn:Ef.
    + intros [= <- <-]. specialize (Hfree _ eq_refl). lia.
    + destruct (fmt_type (format d)); intros [= <- <-]; lia.
Qed.

End FreeSpaceEntries.

(** X9.  The report of [get_free_space] has an entry for a name exactly
    when a disk of the list has this name. *)
Theorem get_free_space_keys self disks_ mode_ free n :
  get_free_space self disks_ mode_ = Some free ->
  (is_Some (free !! n) <->
   In n (List.map name (kwargs_get disks_ (storage_disks self)))).
Proof.
  unfold get_free_space. cbv zeta. intros Hrun.
  rewrite (get_free_space_loop_keys _ _ _ _ _ n Hrun).
  rewrite lookup_empty. split; [intros [H | [x Hx]] | intros H].
  - exact H.
  - discriminate.
  - now left.
Qed.

Lemma get_free_space_keys_witness :
  exists free,
    get_free_space
      (Fixtures.storage (Fixtures.settings CLEAR_PARTITIONS_NONE [] [] false)
                        Samples.sdd_tree)
      None None = Some free
    /\ is_Some (free !! "sdd"%string)
    /\ free !! "sdd1"%string = None.
Proof.
  eexists. split; [vm_compute; reflexivity |]. split.
  - apply (get_free_space_keys
             (Fixtures.storage
                (Fixtures.settings CLEAR_PARTITIONS_NONE [] [] false)
                Samples.sdd_tree) None None _ "sdd"%string).
    + vm_compute. reflexivity.
    + simpl. left. reflexivity.
  - vm_compute. reflexivity.
Defined.

(** X10.  When no size and no free space of a format is negative, no
    [disk_free] and no [fs_free] of the report is negative. *)
Theorem get_free_space_nonnegative self disks_ mode_ free n disk_free fs_free :
  (forall d, In d (kwargs_get disks_ (storage_disks self)) ->
             sizes_nonnegative d) ->
  (forall p, In p (storage_partitions self) -> sizes_nonnegative p) ->
  get_free_space self disks_ mode_ = Some free ->
  free !! n = Some (disk_free, fs_free) ->
  0 <= disk_free /\ 0 <= fs_free.
Proof.
  unfold get_free_space. cbv zeta. intros Hdisks Hparts Hrun Hn.
  destruct (get_free_space_loop_entry _ _ _ _ _ n _ Hrun Hn)
    as [[d [Hd [_ He]]] | Hempty].
  - eapply disk_free_space_nonnegative; [| | exact He]; auto.
  - rewrite lookup_empty in Hempty. discriminate.
Qed.

Ltac solve_sizes H :=
  simpl in H; decompose [or] H; subst; clear H;
  (split; [simpl; lia | simpl; intros f Hf; inversion Hf; lia]).

Lemma get_free_space_nonnegative_witness :
  exists free,
    get_free_space
      (Fixtures.storage (Fixtures.settings CLEAR_PARTITIONS_LIST [] 
                           ["sdd2"%string] false)
                        Samples.sdd_tree)
      None None = Some free
    /\ free !! "sdd"%string = Some (610, 30)
    /\ 0 <= 610 /\ 0 <= 30.
Proof.
  eexists. split; [vm_compute; reflexivity |].
  match goal with |- ?f !! _ = _ /\ _ => pose (free := f) end.
  split; [vm_compute; reflexivity |].
  apply (get_free_space_nonnegative
           (Fixtures.storage
              (Fixtures.settings CLEAR_PARTITIONS_LIST []
                                 ["sdd2"%string] false)
              Samples.sdd_tree) None None free "sdd"%string).
  - intros d Hd. solve_sizes Hd.
  - intros p Hp. solve_sizes Hp.
  - vm_compute. reflexivity.
  - vm_compute. reflexivity.
Defined.

(** X11.  For a disk that is not partitioned, and for a disk that is to
    be cleared as a whole, one of [disk_free] and [fs_free] is zero:
    only a disk reported partition by partition can have both. *)
Theorem get_free_space_one_kind self disks_ mode_ free d :
  let ds := kwargs_get disks_ (storage_disks self) in
  let mode := kwargs_get mode_ (clear_part_type (config self)) in
  In d ds ->
  (forall d', In d' ds -> name d' = name d -> d' = d) ->
  partitioned d = false
  \/ should_clear self d (free_space_kwargs mode d) = true ->
  get_free_space self disks_ mode_ = Some free ->
  exists disk_free fs_free,
    free !! name d = Some (disk_free, fs_free)
    /\ (disk_free = 0 \/ fs_free = 0).
Proof.
  intros ds mode Hin Huniq Hkind Hrun.
  unfold get_free_space in Hrun. cbv zeta in Hrun.
  rewrite (get_free_space_loop_lookup _ _ _ _ _ _ Hrun Hin Huniq).
  unfold disk_free_space. fold mode.
  destruct (should_clear self d (free_space_kwargs mode d)) eqn:E;
    [eauto |].
  destruct Hkind as [-> | H]; [| discriminate].
  destruct (fmt_free (format d)); [eauto |].
  destruct (fmt_type (format d)); eauto.
Qed.

Lemma get_free_space_one_kind_witness :
  exists free,
    get_free_space
      (Fixtures.storage (Fixtures.settings CLEAR_PARTITIONS_NONE [] [] false)
                        [Fixtures.whole_disk "sdg" false (Fixtures.ext4 70)
                                             500])
      None None = Some free
    /\ exists disk_free fs_free,
         free !! "sdg"%string = Some (disk_free, fs_free)
         /\ (disk_free = 0 \/ fs_free = 0).
Proof.
  eexists. split; [vm_compute; reflexivity |].
  match goal with |- exists a b, ?f !! _ = _ /\ _ => pose (free := f) end.
  apply (get_free_space_one_kind
           (Fixtures.storage
              (Fixtures.settings CLEAR_PARTITIONS_NONE [] [] false)
              [Fixtures.whole_disk "sdg" false (Fixtures.ext4 70) 500])
           None None free
           (Fixtures.whole_disk "sdg" false (Fixtures.ext4 70) 500)).
  - simpl. left. reflexivity.
  - simpl. intros d' [<- | []] _. reflexivity.
  - left. reflexivity.
  - vm_compute. reflexivity.
Defined.

(** X12.  For a partitioned disk that is not to be cleared as a whole,
    [disk_free] is the free space of the disk label plus the sizes of
    the partitions to clear, and [fs_free] is what the file systems of
    the other partitions can give up. *)
Theorem get_free_space_partitioned self disks_ mode_ free d label_free :
  let ds := kwargs_get disks_ (storage_disks self) in
  let mode := kwargs_get mode_ (clear_part_type (config self)) in
  let to_clear p := should_clear self p (free_space_kwargs mode d) in
  In d ds ->
  (forall d', In d' ds -> name d' = name d -> d' = d) ->
  partitioned d = true ->
  fmt_free (format d) = Some label_free ->
  should_clear self d (free_space_kwargs mode d) = false ->
  get_free_space self disks_ mode_ = Some free ->
  free !! name d
  = Some (label_free
          + List.fold_right Z.add 0
              (List.map size (List.filter to_clear (partitions_on self d))),
          List.fold_right Z.add 0
            (List.map shrinkable
               (List.filter (fun p => negb (to_clear p))
                            (partitions_on self d)))).
Proof.
  intros ds mode to_clear Hin Huniq Hparted Hlabel Hdisk Hrun.
  unfold get_free_space in Hrun. cbv zeta in Hrun.
  rewrite (get_free_space_loop_lookup _ _ _ _ _ _ Hrun Hin Huniq).
  unfold disk_free_space. fold mode. rewrite Hdisk, Hparted, Hlabel.
  rewrite partition_free_split. reflexivity.
Qed.

(** Disk [sdd] under mode LIST with [sdd2] listed: the label has 10
    free, [sdd2] of size 600 is to be cleared, [sdd1] can give up 30. *)
Lemma get_free_space_partitioned_witness :
  exists free,
    get_free_space
      (Fixtures.storage (Fixtures.settings CLEAR_PARTITIONS_LIST []
                           ["sdd2"%string] false)
                        Samples.sdd_tree)
      None None = Some free
    /\ free !! "sdd"%string = Some (10 + (600 + 0), 30 + 0).
Proof.
  eexists. split; [vm_compute; reflexivity |].
  match goal with |- ?f !! _ = _ => pose (free := f) end.
  apply (get_free_space_partitioned
           (Fixtures.storage
              (Fixtures.settings CLEAR_PARTITIONS_LIST []
                                 ["sdd2"%string] false)
              Samples.sdd_tree) None None free Samples.sdd 10).
  - simpl. left. reflexivity.
  - simpl. intros d' [<- | []] _. reflexivity.
  - reflexivity.
  - reflexivity.
  - reflexivity.
  - vm_compute. reflexivity.
Defined.

(** ** The free space snapshot *)

Lemma dict_nonempty_true (m : gmap string (Z * Z)) :
  dict_nonempty m = true <-> m <> ∅.
Proof.
  unfold dict_nonempty. rewrite negb_true_iff, bool_decide_eq_false.
  reflexivity.
Qed.

(** X13.  Once [create_free_space_snapshot] has stored a report with an
    entry, [free_space_snapshot] returns this report whatever has
    become of the device tree; a report without entries is not kept,
    and [free_space_snapshot] computes the report again. *)
Theorem free_space_snapshot_kept self self' report :
  create_free_space_snapshot self = Some (self', report) ->
  (report <> ∅ ->
   forall tree,
     free_space_snapshot (change_devicetree self' tree)
     = Some (change_devicetree self' tree, report))
  /\ (report = ∅ ->
      forall tree,
        free_space_snapshot (change_devicetree self' tree)
        = create_free_space_snapshot (change_devicetree self' tree)).
Proof.
  unfold create_free_space_snapshot.
  destruct (get_free_space (snapshot_of self) None None) as [m |];
    [| discriminate].
  intros [= <- <-]. split.
  - intros Hne tree. apply dict_nonempty_true in Hne.
    unfold free_space_snapshot, change_devicetree. simpl. rewrite Hne.
    reflexivity.
  - intros -> tree.
    unfold free_space_snapshot, create_free_space_snapshot,
      change_devicetree. simpl. reflexivity.
Qed.

(** The snapshot of disk [sdb] with all of it free, read after the disk
    has left the tree. *)
Lemma free_space_snapshot_kept_witness :
  exists self' report,
    create_free_space_snapshot
      {| snapshot_of :=
           Fixtures.storage
             (Fixtures.settings CLEAR_PARTITIONS_DEFAULT [] [] true)
             [Fixtures.sdb];
         _free_space_snapshot := None |}
    = Some (self', report)
    /\ report !! "sdb"%string = Some (500, 0)
    /\ free_space_snapshot (change_devicetree self' [])
       = Some (change_devicetree self' [], report).
Proof.
  eexists. eexists. split; [vm_compute; reflexivity |].
  split; [vm_compute; reflexivity |].
  eapply (proj1 (free_space_snapshot_kept
                   {| snapshot_of :=
                        Fixtures.storage
                          (Fixtures.settings CLEAR_PARTITIONS_DEFAULT [] []
                                             true)
                          [Fixtures.sdb];
                      _free_space_snapshot := None |} _ _ _)).
  intros H. apply (f_equal (fun m => m !! "sdb"%string)) in H.
  vm_compute in H. discriminate H.
  Unshelve. vm_compute. reflexivity.
Defined.

(** ** The configuration written to the kickstart data *)

Lemma cleared_partitions_fold fresh actions : forall names partial,
  List.fold_left (cleared_partitions_step fresh) actions (names, partial)
  = (names
     ++ List.map destroyed_name (List.filter destroyed_partition actions),
     partial
     || List.existsb (fun a => negb (name_in (destroyed_disk a) fresh))
                     (List.filter destroyed_partition actions)).
Proof.
  induction actions as [| a actions IH]; intros names partial; simpl.
  - now rewrite List.app_nil_r, orb_false_r.
  - assert (E : destroyed_partition a
                = String.eqb (destroyed_type a) "partition") by reflexivity.
    rewrite E.
    destruct (String.eqb (destroyed_type a) "partition"); simpl.
    + rewrite IH, <- List.app_assoc. simpl. f_equal.
      destruct (name_in (destroyed_disk a) fresh), partial; reflexivity.
    + apply IH.
Qed.

(** X14.  Under the mode NONE [update_ksdata] reads the mode to write
    off the destroy actions.  With no action the mode stays NONE.  With
    an action on a partition of a disk that has no fresh disklabel the
    mode is LIST, over the names of all the destroyed partitions, in the
    order of the actions.  In every other case, also when no action is
    on a partition, the mode is ALL, over the disks with a fresh
    disklabel.  The lists of the configuration are dropped. *)
Theorem update_ksdata_clearpart_none self destroy_actions proxy :
  clear_part_type (config self) = CLEAR_PARTITIONS_NONE ->
  let result := update_ksdata_clearpart self destroy_actions proxy in
  let cleared := List.filter destroyed_partition destroy_actions in
  (destroy_actions = [] ->
   InitializationMode result = CLEAR_PARTITIONS_NONE
   /\ DrivesToClear result = [] /\ DevicesToClear result = [])
  /\ (destroy_actions <> [] ->
      (exists a, In a cleared
                 /\ ~ In (destroyed_disk a) (fresh_disks self)) ->
      InitializationMode result = CLEAR_PARTITIONS_LIST
      /\ DrivesToClear result = []
      /\ DevicesToClear result = List.map destroyed_name cleared)
  /\ (destroy_actions <> [] ->
      (forall a, In a cleared -> In (destroyed_disk a) (fresh_disks self)) ->
      InitializationMode result = CLEAR_PARTITIONS_ALL
      /\ DrivesToClear result = fresh_disks self
      /\ DevicesToClear result = []).
Proof.
  intros Hmode result cleared. subst result.
  unfold update_ksdata_clearpart. cbv zeta. simpl InitializationMode.
  rewrite Hmode. simpl ClearPartType_eqb. cbv iota.
  fold (fresh_disks self).
  rewrite (cleared_partitions_fold (fresh_disks self) destroy_actions
             [] false).
  fold cleared. simpl.
  split; [| split].
  - intros ->. simpl. auto.
  - intros Hne [a [Ha Hout]].
    apply nonempty_true in Hne. rewrite Hne. simpl.
    replace (List.existsb _ cleared) with true; [simpl; auto |].
    symmetry. apply List.existsb_exists. exists a. split; [exact Ha |].
    apply negb_true_iff, name_in_not_In. exact Hout.
  - intros Hne Hall.
    apply nonempty_true in Hne. rewrite Hne. simpl.
    replace (List.existsb _ cleared) with false; [simpl; auto |].
    symmetry. apply not_true_is_false. intros H.
    apply List.existsb_exists in H as [a [Ha Hout]].
    apply negb_true_iff, name_in_not_In in Hout. apply Hout, Hall, Ha.
Qed.

(** Under NONE, with the volume [vg] destroyed and no partition: the
    kickstart data get the mode ALL, over no disk. *)
Lemma update_ksdata_clearpart_none_witness :
  InitializationMode
    (update_ksdata_clearpart
       (Fixtures.storage (Fixtures.settings CLEAR_PARTITIONS_NONE [] [] false)
                         Fixtures.lvm_tree)
       [{| destroyed_type := "lvmvg"; destroyed_disk := "sda";
           destroyed_name := "vg" |}]
       {| InitializationMode := CLEAR_PARTITIONS_DEFAULT;
          DrivesToClear := []; DevicesToClear := [];
          InitializeLabelsEnabled := false;
          FormatUnrecognizedEnabled := false |})
  = CLEAR_PARTITIONS_ALL
  /\ fresh_disks
       (Fixtures.storage (Fixtures.settings CLEAR_PARTITIONS_NONE [] [] false)
                         Fixtures.lvm_tree) = [].
Proof.
  split; [| vm_compute; reflexivity].
  apply (proj2 (proj2 (update_ksdata_clearpart_none
           (Fixtures.storage
              (Fixtures.settings CLEAR_PARTITIONS_NONE [] [] false)
              Fixtures.lvm_tree)
           [{| destroyed_type := "lvmvg"; destroyed_disk := "sda";
               destroyed_name := "vg" |}]
           {| InitializationMode := CLEAR_PARTITIONS_DEFAULT;
              DrivesToClear := []; DevicesToClear := [];
              InitializeLabelsEnabled := false;
              FormatUnrecognizedEnabled := false |}
           eq_refl))).
  - discriminate.
  - simpl. intros a [].
Defined.

(** X15.  With kickstart data and a mount point, and under a mode other
    than NONE, [update] reads back from the disk initialization module
    what [update_ksdata] wrote there: the configuration is as it was, up
    to [zero_mbr], which [update_ksdata] does not write and [update]
    takes from the module.  With no kickstart data or no mount point
    [update_ksdata] writes nothing, and [update] reads what the module
    had. *)
Theorem update_after_update_ksdata ksdata mountpoints self destroy_actions
  proxy :
  (ksdata = true -> mountpoints <> ∅ ->
   clear_part_type (config self) <> CLEAR_PARTITIONS_NONE ->
   FormatUnrecognizedEnabled proxy = zero_mbr (config self) ->
   StorageDiscoveryConfig_update (config self)
     (update_ksdata ksdata mountpoints self destroy_actions proxy)
   = config self)
  /\ (ksdata = false \/ mountpoints = ∅ ->
      StorageDiscoveryConfig_update (config self)
        (update_ksdata ksdata mountpoints self destroy_actions proxy)
      = StorageDiscoveryConfig_update (config self) proxy).
Proof.
  unfold update_ksdata. split.
  - intros -> Hmount Hmode Hzero. simpl.
    destruct (bool_decide_reflect (base.size mountpoints = 0%nat))
      as [Hsize | _].
    + apply map_size_empty_iff in Hsize. contradiction.
    + unfold update_ksdata_clearpart. cbv zeta. simpl InitializationMode.
      destruct (ClearPartType_eqb (clear_part_type (config self))
                  CLEAR_PARTITIONS_NONE) eqn:E.
      * apply ClearPartType_eqb_eq in E. contradiction.
      * unfold StorageDiscoveryConfig_update. simpl. rewrite Hzero.
        destruct (config self). reflexivity.
  - intros [-> | ->]; [reflexivity |].
    rewrite map_size_empty. simpl. now rewrite orb_true_r.
Qed.

(** Mode LIST over [sdd2], written and read back with [/] mounted; and
    with nothing mounted, where the mode NONE of the module is read. *)
Lemma update_after_update_ksdata_witness :
  let cfg :=
    Fixtures.settings CLEAR_PARTITIONS_LIST ["sdd"%string] ["sdd2"%string]
                      true in
  let self := Fixtures.storage cfg Samples.sdd_tree in
  let proxy :=
    {| InitializationMode := CLEAR_PARTITIONS_NONE;
       DrivesToClear := []; DevicesToClear := [];
       InitializeLabelsEnabled := false;
       FormatUnrecognizedEnabled := false |} in
  let root :=
    {| subvolume_of := None; mounted_format_exists := true;
       mounted_format_free := 7; mounted_free_space_estimate := 0 |} in
  StorageDiscoveryConfig_update cfg
    (update_ksdata true (<["/"%string := root]> ∅) self [] proxy)
  = cfg
  /\ clear_part_type
       (StorageDiscoveryConfig_update cfg (update_ksdata true ∅ self [] proxy))
     = CLEAR_PARTITIONS_NONE.
Proof.
  intros cfg self proxy root. split.
  - apply (proj1 (update_after_update_ksdata true (<["/"%string := root]> ∅)
                    self [] proxy)).
    + reflexivity.
    + intros H. apply (f_equal (fun m => m !! "/"%string)) in H.
      rewrite lookup_insert_eq, lookup_empty in H. discriminate H.
    + discriminate.
    + reflexivity.
  - rewrite (proj2 (update_after_update_ksdata true ∅ self [] proxy));
      [reflexivity | now right].
Defined.

(** ** The free space of the file systems *)

(** X16.  [file_system_free_space] counts a btrfs volume once: with [/]
    and [/usr] on subvolumes of one volume, [/usr] adds nothing; in every
    other case the result is what [/] alone and [/usr] alone give, added
    up. *)
Theorem file_system_free_space_volume_once
  (mountpoints : gmap string MountedDevice) :
  let shared :=
    exists root usr volume,
      mountpoints !! "/"%string = Some root
      /\ mountpoints !! "/usr"%string = Some usr
      /\ subvolume_of root = Some volume
      /\ subvolume_of usr = Some volume in
  (shared ->
   file_system_free_space mountpoints
   = file_system_free_space (delete "/usr"%string mountpoints))
  /\ (~ shared ->
      file_system_free_space mountpoints
      = file_system_free_space (delete "/usr"%string mountpoints)
        + file_system_free_space (delete "/"%string mountpoints)).
Proof.
  intros shared. subst shared.
  unfold file_system_free_space. simpl List.fold_left.
  unfold file_system_free_space_step.
  rewrite (lookup_delete_eq mountpoints "/usr"%string).
  rewrite (lookup_delete_eq mountpoints "/"%string).
  rewrite (lookup_delete_ne mountpoints "/usr"%string "/"%string)
    by discriminate.
  rewrite (lookup_delete_ne mountpoints "/"%string "/usr"%string)
    by discriminate.
  destruct (mountpoints !! "/"%string) as [root |];
    destruct (mountpoints !! "/usr"%string) as [usr |].
  - destruct (subvolume_of root) as [v |] eqn:Ev;
      destruct (subvolume_of usr) as [u |] eqn:Eu; simpl.
    + destruct (String.eqb_spec u v) as [-> | Hne]; simpl.
      * split; [reflexivity |].
        intros H. exfalso. apply H. exists root, usr, v. auto.
      * split.
        -- intros [r [u' [w [[= <-] [[= <-] [Hr Hu]]]]]]. congruence.
        -- intros _. destruct (mounted_format_exists root),
                       (mounted_format_exists usr); simpl; lia.
    + split; [intros [r [u' [w [_ [[= <-] [_ H]]]]]]; congruence |].
      intros _. destruct (mounted_format_exists root),
                  (mounted_format_exists usr); simpl; lia.
    + split; [intros [r [u' [w [[= <-] [_ [H _]]]]]]; congruence |].
      intros _. destruct (mounted_format_exists root),
                  (mounted_format_exists usr); simpl; lia.
    + split; [intros [r [u' [w [[= <-] [_ [H _]]]]]]; congruence |].
      intros _. destruct (mounted_format_exists root),
                  (mounted_format_exists usr); simpl; lia.
  - split; [intros [r [u' [w [_ [H _]]]]]; discriminate |].
    intros _. destruct (subvolume_of root); simpl;
      destruct (mounted_format_exists root); simpl; lia.
  - split; [intros [r [u' [w [H _]]]]; discriminate |].
    intros _. destruct (subvolume_of usr); simpl;
      destruct (mounted_format_exists usr); simpl; lia.
  - split; [intros [r [u' [w [H _]]]]; discriminate |].
    intros _. reflexivity.
Qed.

(** [/] and [/usr] on two subvolumes of the volume [fedora]: 7 free,
    counted once. *)
Lemma file_system_free_space_volume_once_witness :
  let subvolume :=
    {| subvolume_of := Some "fedora"%string; mounted_format_exists := true;
       mounted_format_free := 7; mounted_free_space_estimate := 0 |} in
  let mountpoints : gmap string MountedDevice :=
    <["/usr"%string := subvolume]> (<["/"%string := subvolume]> ∅) in
  file_system_free_space mountpoints = 7
  /\ file_system_free_space mountpoints
     = file_system_free_space (delete "/usr"%string mountpoints).
Proof.
  intros subvolume mountpoints. split; [vm_compute; reflexivity |].
  apply (proj1 (file_system_free_space_volume_once mountpoints)).
  exists subvolume, subvolume, "fedora"%string.
  repeat split; vm_compute; reflexivity.
Defined.

(** ** Boot loader images *)

Lemma append_empty_r (s : string) : s +:+ EmptyString = s.
Proof.
  induction s as [| c s IH]; [reflexivity |].
  change (String c (s +:+ EmptyString) = String c s). now f_equal.
Qed.

Lemma append_inj_l (s a b : string) : s +:+ a = s +:+ b -> a = b.
Proof.
  induction s as [| c s IH]; [auto |].
  change (String c (s +:+ a) = String c (s +:+ b) -> a = b).
  intros [= H]. auto.
Qed.

(** X17.  Of two Linux images as [__init__] leaves them, with no file
    name set, those with the same kernel file name have the same initrd
    file name: both names come from the version, and an image with no
    version, or an empty one, has neither. *)
Theorem kernel_determines_initrd (a b : LinuxBootLoaderImage) :
  _kernel a = None -> _initrd a = None ->
  _kernel b = None -> _initrd b = None ->
  kernel a = kernel b ->
  initrd a = initrd b
  /\ (kernel a = None <-> truthy (version a) = false)
  /\ (initrd a = None <-> truthy (version a) = false).
Proof.
  unfold kernel, initrd. intros -> -> -> ->. simpl.
  destruct (version a) as [va |], (version b) as [vb |]; simpl;
    try destruct (String.eqb va EmptyString);
    try destruct (String.eqb vb EmptyString); simpl;
    intros H; try discriminate H;
    try (apply (f_equal (fun o => match o with Some s => s | None => EmptyString
                                  end)) in H;
         apply (append_inj_l "vmlinuz-") in H; subst vb);
    (split; [reflexivity | split; split; intros; congruence]).
Qed.

Lemma kernel_determines_initrd_witness :
  let a := LinuxBootLoaderImage_init (Some "sda1"%string)
             (Some "Fedora"%string) (Some "linux"%string)
             (Some "5.3.7"%string) in
  let b := LinuxBootLoaderImage_init (Some "sdb1"%string) None None
             (Some "5.3.7"%string) in
  kernel a = Some "vmlinuz-5.3.7"%string
  /\ initrd b = Some "initramfs-5.3.7.img"%string
  /\ initrd a = initrd b.
Proof.
  intros a b. split; [reflexivity |]. split; [reflexivity |].
  apply (kernel_determines_initrd a b); reflexivity.
Defined.

(** ** Host names and container names *)

(** X18.  [_get_hostname] never returns an ignored name: the empty
    name, [localhost] or [localhost.localdomain].  It returns the
    configured host name when that is none of them, the current host
    name when only that is none of them, and [None] when both are. *)
Theorem get_hostname_not_ignored (network_proxy : NetworkProxy) :
  (forall h, _get_hostname network_proxy = Some h ->
             ignored_hostname (Some h) = false
             /\ (Hostname network_proxy = Some h
                 \/ (ignored_hostname (Hostname network_proxy) = true
                     /\ GetCurrentHostname network_proxy = Some h)))
  /\ (ignored_hostname (Hostname network_proxy) = false ->
      _get_hostname network_proxy = Hostname network_proxy)
  /\ (_get_hostname network_proxy = None <->
      ignored_hostname (Hostname network_proxy) = true
      /\ ignored_hostname (GetCurrentHostname network_proxy) = true).
Proof.
  unfold _get_hostname.
  destruct (ignored_hostname (Hostname network_proxy)) eqn:E1.
  - destruct (ignored_hostname (GetCurrentHostname network_proxy)) eqn:E2.
    + split; [discriminate |]. split; [discriminate |]. tauto.
    + split; [| split]; [| discriminate |].
      * intros h Hh. rewrite Hh in E2. auto.
      * split; [| intros [_ H]; discriminate H].
        intros H. rewrite H in E2. discriminate E2.
  - rewrite E1. split; [| split]; [| reflexivity |].
    + intros h Hh. rewrite Hh in E1. auto.
    + split; [| intros [H _]; discriminate H].
      intros H. rewrite H in E1. discriminate E1.
Qed.

(** With [localhost] configured and [Alpha.example.com] as the current
    name, the current name is the host name. *)
Lemma get_hostname_not_ignored_witness :
  let network_proxy :=
    {| Hostname := Some "localhost"%string;
       GetCurrentHostname := Some "Alpha.example.com"%string |} in
  _get_hostname network_proxy = Some "Alpha.example.com"%string
  /\ ignored_hostname (Some "Alpha.example.com"%string) = false.
Proof.
  intros network_proxy. split; [reflexivity |].
  apply (proj1 (get_hostname_not_ignored network_proxy)
               "Alpha.example.com"%string).
  reflexivity.
Defined.

(** X19.  With no host name to use, the container name template is the
    prefix as it was given, without a pass through [safe_device_name],
    followed by [_image] on an image installation. *)
Theorem get_container_name_template_no_hostname safe_device_name is_image
  network_proxy prefix :
  ignored_hostname (Hostname network_proxy) = true ->
  ignored_hostname (GetCurrentHostname network_proxy) = true ->
  _get_container_name_template safe_device_name is_image network_proxy prefix
  = match prefix with Some p => p | None => EmptyString end
    +:+ (if is_image then "_image" else EmptyString).
Proof.
  intros H1 H2. unfold _get_container_name_template, _get_hostname.
  rewrite H1, H2. cbv zeta.
  assert (E : (match prefix with
               | Some p => if truthy (Some p) then p else EmptyString
               | None => EmptyString
               end)
              = match prefix with Some p => p | None => EmptyString end).
  { destruct prefix as [p |]; [| reflexivity]. simpl.
    destruct (String.eqb_spec p EmptyString) as [-> | Hne]; reflexivity. }
  rewrite E. destruct is_image; [reflexivity |].
  now rewrite append_empty_r.
Qed.

Lemma get_container_name_template_no_hostname_witness :
  _get_container_name_template (fun _ => "sanitized"%string) true
    {| Hostname := None; GetCurrentHostname := Some "localhost"%string |}
    (Some "fedora/vg"%string)
  = "fedora/vg_image"%string.
Proof.
  apply (get_container_name_template_no_hostname
           (fun _ => "sanitized"%string) true
           {| Hostname := None; GetCurrentHostname := Some "localhost"%string |}
           (Some "fedora/vg"%string)); reflexivity.
Defined.

(** ** NVDIMM devices to ignore *)

Lemma allow_action_namespace allowed action ns :
  ns ∈ fst (allow_action allowed action)
  <-> ns ∈ fst allowed
      \/ (nvdimm_namespace action = Some ns
          /\ (nvdimm_action action = NVDIMM_ACTION_RECONFIGURE
              \/ (nvdimm_action action = NVDIMM_ACTION_USE
                  /\ ns <> EmptyString))).
Proof.
  destruct allowed as [A B]. unfold allow_action.
  destruct (nvdimm_action action); simpl.
  - destruct (nvdimm_namespace action) as [n |]; simpl.
    + destruct (String.eqb_spec n EmptyString) as [-> | Hne]; simpl.
      * split; [tauto |].
        intros [H | [[= <-] [H | [_ H]]]];
          [exact H | discriminate | contradiction].
      * rewrite elem_of_union, elem_of_singleton. split.
        -- intros [-> | H]; [right | tauto]. split; [reflexivity |]. tauto.
        -- intros [H | [[= <-] _]]; tauto.
    + split; [tauto |]. intros [H | [H _]]; [exact H | discriminate].
  - destruct (nvdimm_namespace action) as [n |]; simpl.
    + rewrite elem_of_union, elem_of_singleton. split.
      * intros [-> | H]; [right | tauto]. split; [reflexivity |]. tauto.
      * intros [H | [[= <-] _]]; tauto.
    + split; [tauto |]. intros [H | [H _]]; [exact H | discriminate].
  - split; [tauto |].
    intros [H | [_ [H | [H _]]]]; [exact H | discriminate | discriminate].
Qed.

Lemma allow_action_blockdev allowed action b :
  b ∈ snd (allow_action allowed action)
  <-> b ∈ snd allowed
      \/ (nvdimm_action action = NVDIMM_ACTION_USE
          /\ In b (nvdimm_blockdevs action)).
Proof.
  destruct allowed as [A B]. unfold allow_action.
  destruct (nvdimm_action action); simpl.
  - rewrite elem_of_union, elem_of_list_to_set, list_elem_of_In. tauto.
  - destruct (nvdimm_namespace action); simpl;
      (split; [tauto |]; intros [H | [H _]]; [exact H | discriminate]).
  - split; [tauto |]. intros [H | [H _]]; [exact H | discriminate].
Qed.

Lemma allow_action_fold actionList : forall allowed,
  (forall ns,
     ns ∈ fst (List.fold_left allow_action actionList allowed)
     <-> ns ∈ fst allowed
         \/ exists action,
              In action actionList /\ nvdimm_namespace action = Some ns
              /\ (nvdimm_action action = NVDIMM_ACTION_RECONFIGURE
                  \/ (nvdimm_action action = NVDIMM_ACTION_USE
                      /\ ns <> EmptyString)))
  /\ (forall b,
        b ∈ snd (List.fold_left allow_action actionList allowed)
        <-> b ∈ snd allowed
            \/ exists action,
                 In action actionList
                 /\ nvdimm_action action = NVDIMM_ACTION_USE
                 /\ In b (nvdimm_blockdevs action)).
Proof.
  induction actionList as [| a actionList IH]; intros allowed; simpl.
  - split; intros x; (split; [tauto |]); intros [H | [a [[] _]]]; exact H.
  - destruct (IH (allow_action allowed a)) as [IHn IHb]. split.
    + intros ns. rewrite IHn, allow_action_namespace. split.
      * intros [[H | H] | [a' [Hin H]]]; [tauto | right | right].
        -- exists a. tauto.
        -- exists a'. tauto.
      * intros [H | [a' [[<- | Hin] H]]]; [tauto | tauto |].
        right. exists a'. tauto.
    + intros b. rewrite IHb, allow_action_blockdev. split.
      * intros [[H | H] | [a' [Hin H]]]; [tauto | right | right].
        -- exists a. tauto.
        -- exists a'. tauto.
      * intros [H | [a' [[<- | Hin] H]]]; [tauto | tauto |].
        right. exists a'. tauto.
Qed.

Lemma ks_allowed_namespace nvdimm_ksdata ns :
  ns ∈ fst (ks_allowed nvdimm_ksdata) <-> allows_namespace nvdimm_ksdata ns.
Proof.
  unfold allows_namespace, ks_allowed.
  destruct nvdimm_ksdata as [actionList |].
  - rewrite (proj1 (allow_action_fold actionList (∅, ∅))). simpl. split.
    + intros [H | [a H]]; [now apply not_elem_of_empty in H |].
      exists actionList, a. tauto.
    + intros [l [a [[= <-] H]]]. right. exists a. exact H.
  - simpl. split; [intros H; now apply not_elem_of_empty in H |].
    intros [l [a [H _]]]. discriminate H.
Qed.

Lemma ks_allowed_blockdev nvdimm_ksdata b :
  b ∈ snd (ks_allowed nvdimm_ksdata) <-> allows_blockdev nvdimm_ksdata b.
Proof.
  unfold allows_blockdev, ks_allowed.
  destruct nvdimm_ksdata as [actionList |].
  - rewrite (proj2 (allow_action_fold actionList (∅, ∅))). simpl. split.
    + intros [H | [a H]]; [now apply not_elem_of_empty in H |].
      exists actionList, a. tauto.
    + intros [l [a [[= <-] H]]]. right. exists a. exact H.
  - simpl. split; [intros H; now apply not_elem_of_empty in H |].
    intros [l [a [H _]]]. discriminate H.
Qed.

Lemma ignore_namespace_elem allowed ignored ns info b :
  b ∈ ignore_namespace allowed ignored (ns, info)
  <-> b ∈ ignored
      \/ (blockdev info = Some b /\ b <> EmptyString
          /\ (sector_mode info = false
              \/ ((ns ∉ fst allowed) /\ (b ∉ snd allowed)))).
Proof.
  unfold ignore_namespace.
  destruct (sector_mode info); simpl.
  - destruct (bool_decide_reflect (ns ∈ fst allowed)) as [Hns | Hns]; simpl.
    + split; [tauto |].
      intros [H | [_ [_ [H | [H _]]]]];
        [exact H | discriminate | contradiction].
    + destruct (blockdev info) as [b0 |]; simpl.
      * destruct (bool_decide_reflect (b0 ∈ snd allowed)) as [Hb | Hb].
        -- split; [tauto |].
           intros [H | [[= <-] [_ [H | [_ H]]]]];
             [exact H | discriminate | contradiction].
        -- destruct (String.eqb_spec b0 EmptyString) as [-> | Hne]; simpl.
           ++ split; [tauto |]. intros [H | [[= <-] [H _]]]; tauto.
           ++ rewrite elem_of_union, elem_of_singleton. split.
              ** intros [-> | H]; tauto.
              ** intros [H | [[= <-] _]]; tauto.
      * split; [tauto |]. intros [H | [H _]]; [exact H | discriminate].
  - destruct (blockdev info) as [b0 |]; simpl.
    + destruct (String.eqb_spec b0 EmptyString) as [-> | Hne]; simpl.
      * split; [tauto |]. intros [H | [[= <-] [H _]]]; tauto.
      * rewrite elem_of_union, elem_of_singleton. split.
        -- intros [-> | H]; tauto.
        -- intros [H | [[= <-] _]]; tauto.
    + split; [tauto |]. intros [H | [H _]]; [exact H | discriminate].
Qed.

Lemma ignore_namespace_fold allowed namespaces : forall ignored b,
  b ∈ List.fold_left (ignore_namespace allowed) namespaces ignored
  <-> b ∈ ignored
      \/ exists ns info,
           In (ns, info) namespaces
           /\ blockdev info = Some b /\ b <> EmptyString
           /\ (sector_mode info = false
               \/ ((ns ∉ fst allowed) /\ (b ∉ snd allowed))).
Proof.
  induction namespaces as [| [ns info] namespaces IH]; intros ignored b;
    cbn [List.fold_left].
  - split; [tauto |]. intros [H | [ns [info [[] _]]]]. exact H.
  - rewrite IH, ignore_namespace_elem. split.
    + intros [[H | H] | [ns' [info' [Hin H]]]]; [tauto | right | right].
      * exists ns, info. simpl. tauto.
      * exists ns', info'. simpl. tauto.
    + intros [H | [ns' [info' [[E | Hin] H]]]]; [tauto | | ].
      * injection E as <- <-. tauto.
      * right. exists ns', info'. tauto.
Qed.

(** X20.  [get_ignored_nvdimm_blockdevs] ignores a block device exactly
    when it is the block device, under a name that is not empty, of a
    namespace that is not in sector mode, or that the kickstart data
    name neither by namespace nor by block device.  So a namespace that
    is not in sector mode stays ignored whatever the kickstart data
    say. *)
Theorem get_ignored_nvdimm_blockdevs_spec namespaces nvdimm_ksdata b :
  b ∈ get_ignored_nvdimm_blockdevs namespaces nvdimm_ksdata
  <-> exists ns info,
        In (ns, info) namespaces
        /\ blockdev info = Some b /\ b <> EmptyString
        /\ (sector_mode info = false
            \/ (~ allows_namespace nvdimm_ksdata ns
                /\ ~ allows_blockdev nvdimm_ksdata b)).
Proof.
  unfold get_ignored_nvdimm_blockdevs.
  rewrite ignore_namespace_fold. split.
  - intros [H | [ns [info H]]]; [now apply not_elem_of_empty in H |].
    exists ns, info.
    rewrite <- ks_allowed_namespace, <- ks_allowed_blockdev. exact H.
  - intros [ns [info H]]. right. exists ns, info.
    rewrite <- ks_allowed_namespace, <- ks_allowed_blockdev in H. exact H.
Qed.

(** X21.  Kickstart actions only take block devices off the ignored
    ones: with more actions in the kickstart data no more block devices
    are ignored, and with no kickstart data at all every block device of
    a namespace is. *)
Theorem get_ignored_nvdimm_blockdevs_antitone namespaces actions actions' :
  (forall action, In action actions -> In action actions') ->
  get_ignored_nvdimm_blockdevs namespaces (Some actions')
    ⊆ get_ignored_nvdimm_blockdevs namespaces (Some actions)
  /\ get_ignored_nvdimm_blockdevs namespaces (Some actions)
       ⊆ get_ignored_nvdimm_blockdevs namespaces None.
Proof.
  intros Hincl. unfold get_ignored_nvdimm_blockdevs. split; intros b.
  - rewrite !ignore_namespace_fold.
    intros [H | [ns [info [Hin [Hb [Hne Hwhy]]]]]]; [tauto |].
    right. exists ns, info. repeat (split; [assumption |]).
    destruct Hwhy as [H | [Hns Hbd]]; [tauto | right].
    rewrite ks_allowed_namespace in *. rewrite ks_allowed_blockdev in *.
    split.
    + intros [l [a [[= <-] [Ha H]]]]. apply Hns.
      exists actions', a. auto.
    + intros [l [a [[= <-] [Ha H]]]]. apply Hbd.
      exists actions', a. auto.
  - rewrite !ignore_namespace_fold.
    intros [H | [ns [info [Hin [Hb [Hne Hwhy]]]]]]; [tauto |].
    right. exists ns, info. repeat (split; [assumption |]).
    right. simpl. split; apply not_elem_of_empty.
Qed.

(** Two namespaces in sector mode: with [namespace0.0] used in the
    kickstart data only [pmem1s] is ignored, with no action both are. *)
Lemma get_ignored_nvdimm_blockdevs_antitone_witness :
  let namespaces :=
    [("namespace0.0"%string,
      {| sector_mode := true; blockdev := Some "pmem0s"%string |});
     ("namespace1.0"%string,
      {| sector_mode := true; blockdev := Some "pmem1s"%string |})] in
  let use :=
    {| nvdimm_action := NVDIMM_ACTION_USE;
       nvdimm_namespace := Some "namespace0.0"%string;
       nvdimm_blockdevs := [] |} in
  get_ignored_nvdimm_blockdevs namespaces (Some [use])
  = {["pmem1s"%string]}
  /\ get_ignored_nvdimm_blockdevs namespaces (Some [use])
       ⊆ get_ignored_nvdimm_blockdevs namespaces (Some []).
Proof.
  intros namespaces use. split; [vm_compute; reflexivity |].
  apply (proj1 (get_ignored_nvdimm_blockdevs_antitone namespaces [] [use]
                  (fun a (H : In a []) => match H with end))).
Defined.

(** ** What [reset] marks *)

Lemma marked_weaken (P Q : string -> Prop) d d' :
  (forall n, P n -> Q n) -> marked P d d' -> marked Q d d'.
Proof. intros H [-> | [-> Hp]]; [now left | right; auto]. Qed.

Lemma marked_trans P a b c : marked P a b -> marked P b c -> marked P a c.
Proof.
  intros [-> | [-> Ha]] [-> | [-> Hb]].
  - now left.
  - right. auto.
  - right. auto.
  - right. auto.
Qed.

Lemma marked_fields P d d' :
  marked P d d' ->
  name d' = name d /\ parents d' = parents d
  /\ (protected d = true -> protected d' = true).
Proof. intros [-> | [-> _]]; simpl; auto. Qed.

Lemma Forall2_marked_refl P t : Forall2 (marked P) t t.
Proof. induction t; constructor; [now left | assumption]. Qed.

Lemma Forall2_marked_trans P t1 : forall t2 t3,
  Forall2 (marked P) t1 t2 -> Forall2 (marked P) t2 t3 ->
  Forall2 (marked P) t1 t3.
Proof.
  induction t1 as [| a t1 IH]; intros t2 t3 H12 H23.
  - inversion H12; subst. inversion H23; subst. constructor.
  - inversion H12 as [| a' b' ta tb Hab Hrest]; subst.
    inversion H23 as [| b'' c' tb' tc Hbc Hrest']; subst.
    constructor; [eapply marked_trans; eassumption | eapply IH; eassumption].
Qed.

Lemma Forall2_marked_weaken (P Q : string -> Prop) t t' :
  (forall n, P n -> Q n) ->
  Forall2 (marked P) t t' -> Forall2 (marked Q) t t'.
Proof.
  intros H F. induction F; constructor;
    [eapply marked_weaken; eassumption | assumption].
Qed.

Lemma Forall2_marked_In_r P t t' d' :
  Forall2 (marked P) t t' -> In d' t' ->
  exists d, In d t /\ marked P d d'.
Proof.
  intros F. induction F as [| a b ta tb Hab F IH]; intros Hin;
    [destruct Hin |].
  destruct Hin as [<- | Hin].
  - exists a. split; [now left | exact Hab].
  - destruct (IH Hin) as [d [Hd Hm]]. exists d. split; [now right | exact Hm].
Qed.

Lemma Forall2_marked_names P t t' :
  Forall2 (marked P) t t' -> List.map name t' = List.map name t.
Proof.
  intros F. induction F as [| a b ta tb Hab F IH]; [reflexivity |].
  simpl. rewrite IH. now destruct (marked_fields _ _ _ Hab) as [-> _].
Qed.

Lemma protect_marked n t : Forall2 (marked (fun m => m = n)) t (protect n t).
Proof.
  induction t as [| a t IH]; simpl; constructor; [| exact IH].
  destruct (String.eqb_spec (name a) n); [right | left]; auto.
Qed.

Lemma protect_all_marked ps : forall t,
  Forall2 (marked (fun m => In m ps)) t
          (List.fold_left (fun tree parent => protect parent tree) ps t).
Proof.
  induction ps as [| p ps IH]; intros t; simpl.
  - apply Forall2_marked_refl.
  - apply (Forall2_marked_trans _ _ (protect p t)).
    + apply (Forall2_marked_weaken (fun m => m = p)); [| apply protect_marked].
      intros m ->. now left.
    + apply (Forall2_marked_weaken (fun m => In m ps)); [| apply IH].
      intros m Hm. now right.
Qed.

Lemma _mark_protected_device_marked self device :
  Forall2
    (marked (fun m => In m (protected_dev_names self)
                      \/ (live_backing_device self = Some (name device)
                          /\ In m (parents device))))
    (devicetree self) (devicetree (_mark_protected_device self device)).
Proof.
  unfold _mark_protected_device.
  destruct (name_in (name device) (protected_dev_names self)) eqn:Hin;
    [| apply Forall2_marked_refl].
  apply name_in_In in Hin.
  assert (H1 : Forall2
                 (marked (fun m => In m (protected_dev_names self)
                                   \/ (live_backing_device self
                                       = Some (name device)
                                       /\ In m (parents device))))
                 (devicetree self) (protect (name device) (devicetree self))).
  { apply (Forall2_marked_weaken (fun m => m = name device));
      [| apply protect_marked].
    intros m ->. now left. }
  destruct (is_live_backing_device self device) eqn:Hlive; simpl;
    [| exact H1].
  apply (Forall2_marked_trans _ _ _ _ H1).
  apply (Forall2_marked_weaken (fun m => In m (parents device)));
    [| apply protect_all_marked].
  intros m Hm. right. split; [| exact Hm].
  unfold is_live_backing_device in Hlive.
  destruct (live_backing_device self) as [n |]; [| discriminate].
  apply String.eqb_eq in Hlive. now rewrite Hlive.
Qed.

Lemma _mark_protected_device_config self device :
  config (_mark_protected_device self device) = config self.
Proof.
  unfold _mark_protected_device.
  destruct (name_in _ _); [| reflexivity].
  destruct (is_live_backing_device self device); reflexivity.
Qed.

Lemma mark_by_name_fold_None names :
  List.fold_left mark_by_name names None = None.
Proof. induction names; simpl; auto. Qed.

Lemma mark_by_name_fold_marked names : forall self self',
  List.fold_left mark_by_name names (Some self) = Some self' ->
  config self' = config self
  /\ Forall2
       (marked (fun m => In m (protected_dev_names self)
                         \/ exists dev,
                              In dev (devicetree self)
                              /\ live_backing_device self = Some (name dev)
                              /\ In m (parents dev)))
       (devicetree self) (devicetree self').
Proof.
  induction names as [| n names IH]; intros self self' H; simpl in H.
  - injection H as <-. split; [reflexivity | apply Forall2_marked_refl].
  - destruct (get_device_by_name (devicetree self) n) as [dev |] eqn:Hdev;
      [| rewrite mark_by_name_fold_None in H; discriminate].
    apply get_device_by_name_Some in Hdev as [Hdev _].
    apply IH in H as [Hcfg H].
    destruct (_mark_protected_device_names self dev) as [En El].
    pose proof (_mark_protected_device_marked self dev) as Hstep.
    split; [now rewrite Hcfg, _mark_protected_device_config |].
    eapply Forall2_marked_trans.
    + eapply Forall2_marked_weaken; [| exact Hstep].
      intros m [Hm | [Hl Hm]]; [now left | right]. exists dev. auto.
    + eapply Forall2_marked_weaken; [| exact H].
      intros m [Hm | [dev1 [Hin1 [Hl Hm]]]]; [left; congruence | right].
      destruct (Forall2_marked_In_r _ _ _ _ Hstep Hin1) as [dev0 [Hin0 Hm0]].
      destruct (marked_fields _ _ _ Hm0) as [Hname [Hpar _]].
      exists dev0. split; [exact Hin0 |]. split; congruence.
Qed.

Lemma _resolve_protected_device_specs_frame env self :
  config (_resolve_protected_device_specs env self) = config self
  /\ devicetree (_resolve_protected_device_specs env self) = devicetree self
  /\ live_backing_device (_resolve_protected_device_specs env self)
     = live_backing_device self.
Proof.
  unfold _resolve_protected_device_specs.
  generalize (protected_dev_specs (config self)). intros specs.
  revert self. induction specs as [| spec specs IH]; intros self; simpl;
    [auto |].
  destruct (resolve_device env (devicetree self) spec) as [dev |];
    [| apply IH].
  destruct (IH (set_protected_dev_names self
                  (protected_dev_names self ++ [name dev])))
    as [H1 [H2 H3]].
  simpl in H1, H2, H3. auto.
Qed.

Lemma _find_live_backing_device_frame env self :
  config (_find_live_backing_device env self) = config self
  /\ devicetree (_find_live_backing_device env self) = devicetree self.
Proof.
  unfold _find_live_backing_device.
  destruct (live_device_name env); simpl; auto.
Qed.

(** What [reset] starts to mark from: the configuration and the tree of
    the storage object, and the names found. *)
Lemma reset_protected_devices_start env self :
  let start :=
    _find_live_backing_device env
      (_resolve_protected_device_specs env
         (set_protected_dev_names self [])) in
  config start = config self /\ devicetree start = devicetree self
  /\ protected_dev_names start = protected_names_found env self
  /\ reset_protected_devices env self
     = List.fold_left mark_by_name (protected_dev_names start) (Some start).
Proof.
  intros start. subst start.
  destruct (_find_live_backing_device_frame env
              (_resolve_protected_device_specs env
                 (set_protected_dev_names self []))) as [H1 H2].
  destruct (_resolve_protected_device_specs_frame env
              (set_protected_dev_names self [])) as [H3 [H4 _]].
  simpl in H3, H4.
  split; [congruence |]. split; [congruence |]. split; reflexivity.
Qed.

(** X22.  The protected-device handling of [reset] sets flags and
    nothing else: the configuration is as it was, the tree has the same
    devices in the same order, and a device is as it was or has
    [protected] set.  It is set only on a device that has one of the
    protected names, or that a device with the name of the live backing
    device names as a parent. *)
Theorem reset_marks_only env self self' :
  reset_protected_devices env self = Some self' ->
  config self' = config self
  /\ protected_dev_names self' = protected_names_found env self
  /\ Forall2
       (marked (fun n => In n (protected_dev_names self')
                         \/ exists dev,
                              In dev (devicetree self)
                              /\ live_backing_device self' = Some (name dev)
                              /\ In n (parents dev)))
       (devicetree self) (devicetree self').
Proof.
  destruct (reset_protected_devices_start env self)
    as [Hcfg [Htree [Hnames ->]]].
  intros Hrun.
  destruct (mark_by_name_fold_names _ _ _ Hrun) as [En El].
  destruct (mark_by_name_fold_marked _ _ _ Hrun) as [Hc Hm].
  split; [congruence |]. split; [congruence |].
  rewrite <- Htree, En, El. exact Hm.
Qed.

Lemma reset_marks_only_witness :
  exists self',
    reset_protected_devices Fixtures.live_env Fixtures.live_storage
    = Some self'
    /\ protected_dev_names self' = ["md127"%string]
    /\ List.map name (devicetree self')
       = List.map name Fixtures.live_tree.
Proof.
  eexists. split; [vm_compute; reflexivity |].
  split; [vm_compute; reflexivity |].
  eapply Forall2_marked_names.
  apply (reset_marks_only Fixtures.live_env Fixtures.live_storage).
  vm_compute. reflexivity.
Defined.

Lemma _mark_protected_device_In self device d' :
  In (name device) (protected_dev_names self) ->
  In d' (devicetree (_mark_protected_device self device)) ->
  exists d, In d (devicetree self) /\ name d' = name d
            /\ (protected d = true -> protected d' = true)
            /\ (name d = name device -> protected d' = true).
Proof.
  intros Hin. unfold _mark_protected_device.
  apply name_in_In in Hin. rewrite Hin.
  destruct (is_live_backing_device self device); simpl; intros H.
  - apply protect_all_In in H as [d1 [H1 [Hn1 [_ [Hk1 _]]]]].
    apply protect_In in H1 as [d [H0 [Hn [_ [Hk Hhit]]]]].
    exists d. split; [exact H0 |]. split; [congruence |]. split; auto.
  - apply protect_In in H as [d [H0 [Hn [_ [Hk Hhit]]]]].
    exists d. auto.
Qed.

Lemma mark_by_name_fold_In names : forall self self',
  (forall n, In n names -> In n (protected_dev_names self)) ->
  List.fold_left mark_by_name names (Some self) = Some self' ->
  forall d', In d' (devicetree self') ->
  exists d, In d (devicetree self) /\ name d' = name d
            /\ (protected d = true -> protected d' = true)
            /\ (In (name d) names -> protected d' = true).
Proof.
  induction names as [| n names IH]; intros self self' Hall H d' Hd';
    simpl in H.
  - injection H as <-. exists d'. repeat split; auto; intros [].
  - destruct (get_device_by_name (devicetree self) n) as [dev |] eqn:Hdev;
      [| rewrite mark_by_name_fold_None in H; discriminate].
    apply get_device_by_name_Some in Hdev as [_ Hname].
    destruct (_mark_protected_device_names self dev) as [En _].
    assert (Hn : In (name dev) (protected_dev_names self))
      by (rewrite Hname; apply Hall; now left).
    destruct (IH _ _ (fun m Hm => eq_ind_r (In m) (Hall m (or_intror Hm)) En)
                 H d' Hd') as [d1 [H1 [Hn1 [Hk1 Hrest]]]].
    destruct (_mark_protected_device_In self dev d1 Hn H1)
      as [d [H0 [Hn0 [Hk0 Hhit]]]].
    exists d. split; [exact H0 |]. split; [congruence |].
    split; [auto |].
    intros [E | Hin].
    + apply Hk1, Hhit. congruence.
    + apply Hrest. congruence.
Qed.

(** X23.  When [reset] ends normally, every device of the tree that has
    one of the protected names is marked protected. *)
Theorem reset_marks_protected_names env self self' d :
  reset_protected_devices env self = Some self' ->
  In d (devicetree self') ->
  In (name d) (protected_dev_names self') ->
  protected d = true.
Proof.
  destruct (reset_protected_devices_start env self) as [_ [_ [_ ->]]].
  intros Hrun Hd Hname.
  destruct (mark_by_name_fold_names _ _ _ Hrun) as [En _].
  destruct (mark_by_name_fold_In _ _ _ (fun n H => H) Hrun d Hd)
    as [d0 [_ [Hn [_ Hhit]]]].
  apply Hhit. rewrite <- Hn, <- En. exact Hname.
Qed.

Lemma reset_marks_protected_names_witness :
  exists self',
    reset_protected_devices Fixtures.live_env Fixtures.live_storage
    = Some self'
    /\ In (set_protected Fixtures.md127 true) (devicetree self')
    /\ protected (set_protected Fixtures.md127 true) = true.
Proof.
  eexists. split; [vm_compute; reflexivity |].
  match goal with |- In _ (devicetree ?s) /\ _ => pose (self' := s) end.
  assert (Hin : In (set_protected Fixtures.md127 true) (devicetree self'))
    by (vm_compute; tauto).
  split; [exact Hin |].
  apply (reset_marks_protected_names Fixtures.live_env Fixtures.live_storage
           self' (set_protected Fixtures.md127 true)).
  - vm_compute. reflexivity.
  - exact Hin.
  - vm_compute. tauto.
Defined.

Lemma get_device_by_name_None tree n :
  get_device_by_name tree n = None <-> ~ In n (List.map name tree).
Proof.
  unfold get_device_by_name.
  induction tree as [| x tree IH]; simpl; [tauto |].
  destruct (String.eqb_spec (name x) n) as [-> | Hne].
  - split; [discriminate | tauto].
  - rewrite IH. tauto.
Qed.

Lemma mark_by_name_fold_raises names : forall self,
  List.fold_left mark_by_name names (Some self) = None
  <-> exists n, In n names /\ ~ In n (List.map name (devicetree self)).
Proof.
  induction names as [| n names IH]; intros self; simpl.
  - split; [discriminate | intros [n [[] _]]].
  - destruct (get_device_by_name (devicetree self) n) as [dev |] eqn:Hdev.
    + rewrite IH.
      rewrite (Forall2_marked_names _ _ _
                 (_mark_protected_device_marked self dev)).
      assert (Hin : In n (List.map name (devicetree self))).
      { apply get_device_by_name_Some in Hdev as [Hin <-].
        now apply List.in_map. }
      split.
      * intros [m [Hm Hout]]. exists m. auto.
      * intros [m [[<- | Hm] Hout]]; [contradiction |]. exists m. auto.
    + rewrite mark_by_name_fold_None. split; [| reflexivity].
      intros _. exists n. split; [now left |].
      now apply get_device_by_name_None.
Qed.

(** X24.  [reset] ends with the error of [device.name] on [None] exactly
    when one of the names found, for a protected device specification or
    for the live backing device, is not the name of a device of the
    tree. *)
Theorem reset_raises env self :
  reset_protected_devices env self = None
  <-> exists n, In n (protected_names_found env self)
                /\ get_device_by_name (devicetree self) n = None.
Proof.
  destruct (reset_protected_devices_start env self)
    as [_ [Htree [Hnames ->]]].
  rewrite mark_by_name_fold_raises, Htree, Hnames.
  split; intros [n [Hn Hout]]; exists n; (split; [exact Hn |]);
    now apply get_device_by_name_None.
Qed.

Lemma _resolve_protected_device_specs_names env specs : forall self,
  protected_dev_names
    (List.fold_left
       (fun self spec =>
          match resolve_device env (devicetree self) spec with
          | Some dev =>
              set_protected_dev_names self
                (protected_dev_names self ++ [name dev])
          | None => self
          end)
       specs self)
  = protected_dev_names self
    ++ List.flat_map
         (fun spec => match resolve_device env (devicetree self) spec with
                      | Some dev => [name dev]
                      | None => []
                      end)
         specs.
Proof.
  induction specs as [| spec specs IH]; intros self; simpl.
  - now rewrite List.app_nil_r.
  - destruct (resolve_device env (devicetree self) spec) as [dev |].
    + rewrite IH. simpl. now rewrite <- List.app_assoc.
    + apply IH.
Qed.

(** X25.  [reset] starts the protected names afresh: they are the names
    of the devices the protected device specifications resolve to, in
    the order of the specifications, followed by the name of the device
    with the live image.  [live_backing_device] is not started afresh:
    with no live image mounted it stays what it was. *)
Theorem reset_names_found env self :
  protected_names_found env self
  = List.flat_map
      (fun spec => match resolve_device env (devicetree self) spec with
                   | Some dev => [name dev]
                   | None => []
                   end)
      (protected_dev_specs (config self))
    ++ match live_device_name env with Some n => [n] | None => [] end
  /\ (forall self',
        live_device_name env = None ->
        reset_protected_devices env self = Some self' ->
        live_backing_device self' = live_backing_device self).
Proof.
  split.
  - unfold protected_names_found, _find_live_backing_device,
      _resolve_protected_device_specs.
    pose proof (_resolve_protected_device_specs_names env
                  (protected_dev_specs (config self))
                  (set_protected_dev_names self [])) as H.
    simpl in H.
    destruct (live_device_name env) as [n |]; simpl.
    + now rewrite H.
    + now rewrite H, List.app_nil_r.
  - intros self' Hlive.
    destruct (reset_protected_devices_start env self) as [_ [_ [_ ->]]].
    intros Hrun.
    destruct (mark_by_name_fold_names _ _ _ Hrun) as [_ ->].
    unfold _find_live_backing_device. rewrite Hlive.
    now destruct (_resolve_protected_device_specs_frame env
                    (set_protected_dev_names self [])) as [_ [_ ->]].
Qed.

(** With no live image mounted, the live backing device [sr0] of an
    earlier run stays, and the protected names of that run do not. *)
Lemma reset_names_found_witness :
  let env :=
    {| resolve_device := fun _ _ => None;
       proc_mounts := ["rootfs / rootfs rw 0 0"%string];
       udev_get_device := fun _ => None |} in
  let self :=
    {| config := Fixtures.settings CLEAR_PARTITIONS_ALL [] [] false;
       devicetree := Fixtures.sda_tree;
       protected_dev_names := ["sr0"%string];
       live_backing_device := Some "sr0"%string |} in
  exists self',
    reset_protected_devices env self = Some self'
    /\ protected_dev_names self' = []
    /\ live_backing_device self' = live_backing_device self.
Proof.
  intros env self. eexists. split; [vm_compute; reflexivity |].
  split; [reflexivity |].
  apply (proj2 (reset_names_found env self)); vm_compute; reflexivity.
Defined.

(** ** The line of the live mount point *)

Lemma first_word_of_word c rest :
  is_space c = false ->
  first_word (String c rest) = Some (String c (take_word rest)).
Proof. intros H. simpl. now rewrite H. Qed.

Lemma prefix_String a s1 s2 :
  String.prefix (String a s1) s2 = true ->
  exists s2', s2 = String a s2' /\ String.prefix s1 s2' = true.
Proof.
  destruct s2 as [| b s2']; [discriminate |].
  cbn [String.prefix]. destruct (ascii_dec a b) as [<- |]; [eauto |].
  discriminate.
Qed.

(** X26.  A line of [/proc/mounts] that names the live mount point has a
    first word, and the word is not empty: [mnt.split()[0]] does not
    raise there. *)
Theorem live_mount_line_names_device mnt :
  contains live_mountpoint mnt = true ->
  exists live_device_path,
    first_word mnt = Some live_device_path
    /\ live_device_path <> EmptyString.
Proof.
  induction mnt as [| c rest IH];
    [intros H; vm_compute in H; discriminate H |].
  intros H.
  destruct (is_space c) eqn:Hc.
  - assert (Hrest : first_word (String c rest) = first_word rest)
      by (simpl; now rewrite Hc).
    rewrite Hrest.
    change (String.prefix live_mountpoint (String c rest)
            || contains live_mountpoint rest = true) in H.
    apply orb_true_iff in H as [H | H]; [| exact (IH H)].
    unfold live_mountpoint in H.
    apply prefix_String in H as [s2 [E H]]. injection E as _ ->.
    apply prefix_String in H as [s3 [-> _]].
    eexists. split; [apply first_word_of_word; reflexivity | discriminate].
  - eexists. split; [apply first_word_of_word; exact Hc | discriminate].
Qed.

Lemma live_mount_line_names_device_witness :
  exists live_device_path,
    first_word "/dev/md127 /run/initramfs/live iso9660 ro,relatime 0 0"
    = Some live_device_path
    /\ live_device_path <> EmptyString.
Proof.
  apply (live_mount_line_names_device
           "/dev/md127 /run/initramfs/live iso9660 ro,relatime 0 0").
  vm_compute. reflexivity.
Defined.

(** ** The order of the partitions *)

Lemma insert_descending_Permutation p l :
  Permutation (p :: l) (insert_descending p l).
Proof.
  induction l as [| q l IH]; simpl; [reflexivity |].
  destruct (partition_number q <? partition_number p); [reflexivity |].
  rewrite <- IH. apply perm_swap.
Qed.

Lemma insert_descending_sorted p l :
  StronglySorted (fun a b => partition_number b <= partition_number a) l ->
  StronglySorted (fun a b => partition_number b <= partition_number a)
                 (insert_descending p l).
Proof.
  induction l as [| q l IH]; intros H; simpl.
  - constructor; constructor.
  - inversion H as [| q' l' Hl Hq]; subst.
    destruct (Z.ltb_spec (partition_number q) (partition_number p)) as [Hlt | Hge].
    + constructor; [exact H |]. constructor; [lia |].
      rewrite List.Forall_forall in *. intros x Hx.
      specialize (Hq x Hx). lia.
    + constructor; [now apply IH |].
      rewrite List.Forall_forall in *. intros x Hx.
      apply insert_descending_In in Hx as [-> | Hx]; [lia | now apply Hq].
Qed.

(** X27.  [clear_partitions] looks at the partitions it was given, each
    one once, by descending partition number; a partition without a
    number counts as number 1. *)
Theorem sorted_descending_sorted l :
  Permutation l (sorted_descending l)
  /\ StronglySorted (fun a b => partition_number b <= partition_number a)
                    (sorted_descending l).
Proof.
  unfold sorted_descending.
  assert (G : forall acc,
             StronglySorted
               (fun a b => partition_number b <= partition_number a) acc ->
             Permutation (l ++ acc)
               (List.fold_left (fun sorted p => insert_descending p sorted)
                               l acc)
             /\ StronglySorted
                  (fun a b => partition_number b <= partition_number a)
                  (List.fold_left
                     (fun sorted p => insert_descending p sorted) l acc)).
  { induction l as [| p l IH]; intros acc Hacc; simpl.
    - split; [reflexivity | exact Hacc].
    - destruct (IH (insert_descending p acc)
                   (insert_descending_sorted p acc Hacc)) as [Hp Hs].
      split; [| exact Hs].
      rewrite <- Hp, <- insert_descending_Permutation.
      apply Permutation_middle. }
  destruct (G [] (SSorted_nil _)) as [Hp Hs].
  rewrite List.app_nil_r in Hp. now split.
Qed.

(** ** A run of [clear_partitions] with nothing to clear *)

Lemma should_clear_nothing_to_initialize self d :
  is_none_or_default (clear_part_type (config self)) = true ->
  initialize_disks (config self) = false ->
  should_clear self d no_kwargs = false.
Proof.
  intros Hmode Hinit. rewrite should_clear_checks.
  unfold none_default_rejects, effective_clear_part_type. simpl.
  rewrite Hmode, Hinit. simpl. now rewrite !andb_false_r.
Qed.

Lemma clear_disk_pass_untouched todo : forall s w,
  (forall d, should_clear s d no_kwargs = false) ->
  zero_mbr (config s) = false ->
  List.fold_left clear_disk_step todo (s, w) = (s, w).
Proof.
  induction todo as [| d todo IH]; intros s w Hsc Hzero; [reflexivity |].
  cbn [List.fold_left].
  assert (E : clear_disk_step (s, w) d = (s, w)).
  { unfold clear_disk_step. cbv zeta. now rewrite Hsc, Hzero. }
  rewrite E. now apply IH.
Qed.

(** X28.  Under the modes NONE and DEFAULT, with no disk labels to
    initialize and no [zerombr], [clear_partitions] clears no device and
    writes no disklabel, and logs no warning; what it still does is the
    removal of the extended partitions that are empty. *)
Theorem clear_partitions_nothing_to_clear self :
  is_none_or_default (clear_part_type (config self)) = true ->
  initialize_disks (config self) = false ->
  zero_mbr (config self) = false ->
  clear_partitions self
  = (set_devicetree self
       (remove_empty_extended_partitions (devicetree self)), []).
Proof.
  intros Hmode Hinit Hzero. unfold clear_partitions. cbv zeta.
  rewrite clear_partition_pass_nothing
    by (intros p _; now apply should_clear_nothing_to_initialize).
  apply clear_disk_pass_untouched; [| exact Hzero].
  intros d. now apply should_clear_nothing_to_initialize.
Qed.

Lemma clear_partitions_nothing_to_clear_witness :
  clear_partitions
    (Fixtures.storage StorageDiscoveryConfig_init Samples.sdd_tree)
  = (Fixtures.storage StorageDiscoveryConfig_init Samples.sdd_tree, []).
Proof.
  apply (clear_partitions_nothing_to_clear
           (Fixtures.storage StorageDiscoveryConfig_init Samples.sdd_tree));
    reflexivity.
Defined.

Lemma clear_disk_pass_zerombr todo : forall s w,
  is_none_or_default (clear_part_type (config s)) = true ->
  initialize_disks (config s) = false ->
  zero_mbr (config s) = true ->
  List.fold_left clear_disk_step todo (s, w)
  = (set_devicetree s
       (List.fold_left initialize_disk
          (List.filter
             (fun d => is_None (fmt_type (format d)) && negb (protected d))
             todo)
          (devicetree s)),
     w ++ List.map name
            (List.filter
               (fun d => is_None (fmt_type (format d)) && protected d)
               todo)).
Proof.
  induction todo as [| d todo IH]; intros s w Hmode Hinit Hzero.
  - simpl. now rewrite set_devicetree_same, List.app_nil_r.
  - cbn [List.fold_left List.filter].
    assert (E : clear_disk_step (s, w) d
                = if is_None (fmt_type (format d))
                  then if protected d then (s, w ++ [name d])
                       else (set_devicetree s
                               (initialize_disk (devicetree s) d), w)
                  else (s, w)).
    { unfold clear_disk_step. cbv zeta.
      rewrite (should_clear_nothing_to_initialize s d Hmode Hinit), Hzero.
      simpl. now rewrite orb_false_r. }
    rewrite E.
    destruct (is_None (fmt_type (format d))), (protected d); simpl.
    + rewrite IH by assumption. now rewrite <- List.app_assoc.
    + rewrite IH by assumption. reflexivity.
    + now rewrite IH by assumption.
    + now rewrite IH by assumption.
Qed.

(** X29.  [zerombr] does not ask for the mode: under the modes NONE and
    DEFAULT, with no disk labels to initialize, [clear_partitions] still
    writes a fresh disklabel to each disk that has no format at all and
    is not protected, and logs the warning for each such disk that is
    protected. *)
Theorem clear_partitions_zerombr self :
  is_none_or_default (clear_part_type (config self)) = true ->
  initialize_disks (config self) = false ->
  zero_mbr (config self) = true ->
  let tree := remove_empty_extended_partitions (devicetree self) in
  let unformatted :=
    List.filter (fun d => is_None (fmt_type (format d)))
                (List.filter is_disk tree) in
  clear_partitions self
  = (set_devicetree self
       (List.fold_left initialize_disk
          (List.filter (fun d => negb (protected d)) unformatted) tree),
     List.map name (List.filter protected unformatted)).
Proof.
  intros Hmode Hinit Hzero tree unformatted.
  unfold clear_partitions. cbv zeta.
  rewrite clear_partition_pass_nothing
    by (intros p _; now apply should_clear_nothing_to_initialize).
  rewrite clear_disk_pass_zerombr by assumption.
  unfold storage_disks. simpl. fold tree.
  subst unformatted.
  assert (F : forall (f g : Device -> bool) l,
             List.filter g (List.filter f l)
             = List.filter (fun d => f d && g d) l).
  { intros f g l. induction l as [| x l IHl]; simpl; [reflexivity |].
    destruct (f x); simpl; [destruct (g x) |]; now rewrite IHl. }
  now rewrite !F.
Qed.

(** The mode NONE with [zerombr]: the disk [sdg] with no format gets a
    disklabel. *)
Lemma clear_partitions_zerombr_witness :
  let sdg := Fixtures.whole_disk "sdg" false Fixtures.unformatted 100 in
  let self :=
    Fixtures.storage
      {| clear_part_type := CLEAR_PARTITIONS_NONE; clear_part_disks := [];
         clear_part_devices := []; initialize_disks := false;
         protected_dev_specs := []; zero_mbr := true;
         clear_non_existent := false |}
      [sdg] in
  clear_partitions self = (set_devicetree self [fresh_disklabel sdg], []).
Proof.
  intros sdg self.
  apply (clear_partitions_zerombr self); reflexivity.
Defined.
